(** * Tokenomics simulator: the month-by-month projection of [sim.py]

    The development embeds [run_simulation] of [src/sim.py] and settles the
    properties its specification states about it.

    Layout.
    - [Py]: Python's exceptions as an error monad.
    - [Numeric]: the arithmetic the simulation uses ([+], [-], [*], [/],
      [<], [==], integer and decimal literals), as an interface.
    - [Binary64]: Python's own numbers, an [int] (unbounded integer) or a
      [float] (IEEE 754 binary64, round to nearest even), with the
      exceptions their operations raise.
    - [Exact]: the same operations on exact rationals, where only a
      division by zero raises.  This is the arithmetic the specification
      reasons in.
    - [Sim]: the simulation, written once over the interface, and the
      vocabulary the properties are stated in.
    - The theorems.  Those on the shape of a run and on how a row's fields
      are related hold in any arithmetic, so in both of the above.  That
      the supply stays non-negative, the price and the depth of the market
      away from zero, and that the run returns its rows, is proved in
      both: in exact arithmetic outright, in binary64 by an analysis of
      the signs and of the range of the rounded results.  That the supply
      falls, the price rises and the total AUM grows from row to row is
      proved in exact arithmetic.  Concrete runs are evaluated in both;
      [Binary64Runs] shows where binary64 overflow leaves exact
      arithmetic.
    - Further properties of the loop: the ledgers that tie each row to the
      row before it, the AUM in closed form, bounds on the burn and on
      the price move, the runs without supply, revenue or burn, the
      starting price of zero, the types of the columns and the inputs the
      sidebar can give. *)

From Stdlib Require Import ZArith QArith List Bool Lia Lqa.
From Stdlib Require Import Floats.SpecFloat.
Import ListNotations.

(* ------------------------------------------------------------------ *)
(** ** Exceptions *)

Module Py.

(** The two exceptions arithmetic on Python numbers can raise. *)
Inductive exn : Type :=
| ZeroDivisionError
| OverflowError.

Inductive result (A : Type) : Type :=
| Ok (a : A)
| Raise (e : exn).

Arguments Ok {A} a.
Arguments Raise {A} e.

Definition bind {A B : Type} (c : result A) (k : A -> result B) : result B :=
  match c with
  | Ok a => k a
  | Raise e => Raise e
  end.

Definition is_ok {A : Type} (c : result A) : bool :=
  match c with Ok _ => true | Raise _ => false end.

(** [safe C c]: the computation [c] does not raise [ZeroDivisionError], and
    a value it returns is in [C]. *)
Definition safe {A : Type} (C : A -> Prop) (c : result A) : Prop :=
  match c with
  | Ok v => C v
  | Raise OverflowError => True
  | Raise ZeroDivisionError => False
  end.

(** [no_overflow C c]: the computation [c] does not raise [OverflowError],
    and a value it returns is in [C]. *)
Definition no_overflow {A : Type} (C : A -> Prop) (c : result A) : Prop :=
  match c with
  | Ok v => C v
  | Raise ZeroDivisionError => True
  | Raise OverflowError => False
  end.

End Py.

Import Py.

Declare Scope py_scope.
Delimit Scope py_scope with py.
Notation "x <- c ;; k" := (bind c (fun x => k))
  (at level 61, c at next level, right associativity) : py_scope.
Local Open Scope py_scope.

(* ------------------------------------------------------------------ *)
(** ** The arithmetic interface *)

(** What [run_simulation] asks of its numbers.  [int_lit z] is the integer
    literal [z]; [dec_lit m k] is the decimal literal [m * 10^-k] (so
    [dec_lit 1 2] is [0.01]); [lt] and [num_eq] are Python's [<] and [==]. *)
Class Numeric (num : Type) : Type := {
  int_lit : Z -> num;
  dec_lit : Z -> nat -> num;
  add : num -> num -> result num;
  sub : num -> num -> result num;
  mul : num -> num -> result num;
  truediv : num -> num -> result num;
  lt : num -> num -> bool;
  num_eq : num -> num -> bool
}.

(* ------------------------------------------------------------------ *)
(** ** Python numbers: [int] and binary64 [float] *)

Module Binary64.

Definition prec : Z := 53.
Definition emax : Z := 1024.

Definition float : Type := spec_float.

Inductive pynum : Type :=
| PInt (z : Z)
| PFloat (f : float).

(** The integer [z] as a float of mantissa [|z|] and exponent 0 (not yet
    rounded to 53 bits). *)
Definition raw_of_Z (z : Z) : float :=
  match z with
  | Z0 => S754_zero false
  | Zpos p => S754_finite false p 0
  | Zneg p => S754_finite true p 0
  end.

Definition is_infinite (f : float) : bool :=
  match f with S754_infinity _ => true | _ => false end.

Definition is_zero (f : float) : bool :=
  match f with S754_zero _ => true | _ => false end.

(** [float(z)]: the nearest binary64, [OverflowError] when there is none. *)
Definition to_float (z : Z) : result float :=
  let f := binary_normalize prec emax z 0 false in
  if is_infinite f then Raise OverflowError else Ok f.

(** A number as the float operand of a mixed operation. *)
Definition as_float (x : pynum) : result float :=
  match x with
  | PInt z => to_float z
  | PFloat f => Ok f
  end.

Definition float_op (op : float -> float -> float) (x y : pynum)
  : result pynum :=
  a <- as_float x ;;
  b <- as_float y ;;
  Ok (PFloat (op a b)).

Definition py_add (x y : pynum) : result pynum :=
  match x, y with
  | PInt a, PInt b => Ok (PInt (a + b))
  | _, _ => float_op (SFadd prec emax) x y
  end.

Definition py_sub (x y : pynum) : result pynum :=
  match x, y with
  | PInt a, PInt b => Ok (PInt (a - b))
  | _, _ => float_op (SFsub prec emax) x y
  end.

Definition py_mul (x y : pynum) : result pynum :=
  match x, y with
  | PInt a, PInt b => Ok (PInt (a * b))
  | _, _ => float_op (SFmul prec emax) x y
  end.

(** [a / b] on two ints is the exact quotient rounded once. *)
Definition int_truediv (a b : Z) : result pynum :=
  if Z.eqb b 0 then Raise ZeroDivisionError
  else
    let f := SFdiv prec emax (raw_of_Z a) (raw_of_Z b) in
    if is_infinite f then Raise OverflowError else Ok (PFloat f).

Definition py_truediv (x y : pynum) : result pynum :=
  match x, y with
  | PInt a, PInt b => int_truediv a b
  | _, _ =>
      a <- as_float x ;;
      b <- as_float y ;;
      if is_zero b then Raise ZeroDivisionError
      else Ok (PFloat (SFdiv prec emax a b))
  end.

(** Comparison of a float with an int is exact in Python: no conversion. *)
Definition cmp_float_Z (f : float) (z : Z) : option comparison :=
  match f with
  | S754_nan => None
  | S754_infinity s => Some (if s then Lt else Gt)
  | S754_zero _ => Some (Z.compare 0 z)
  | S754_finite s m e =>
      let v := if s then Zneg m else Zpos m in
      Some (if Z.leb 0 e then Z.compare (v * 2 ^ e) z
            else Z.compare v (z * 2 ^ (- e)))
  end.

Definition py_compare (x y : pynum) : option comparison :=
  match x, y with
  | PInt a, PInt b => Some (Z.compare a b)
  | PFloat f, PInt b => cmp_float_Z f b
  | PInt a, PFloat g => option_map CompOpp (cmp_float_Z g a)
  | PFloat f, PFloat g => SFcompare f g
  end.

Definition py_lt (x y : pynum) : bool :=
  match py_compare x y with Some Lt => true | _ => false end.

Definition py_eq (x y : pynum) : bool :=
  match py_compare x y with Some Eq => true | _ => false end.

(** A decimal literal denotes the binary64 nearest to its exact value. *)
Definition py_dec (m : Z) (k : nat) : pynum :=
  PFloat (SFdiv prec emax (raw_of_Z m) (raw_of_Z (10 ^ Z.of_nat k))).

(** *** Classes of numbers, for the analysis of signs *)

(** A float that is a binary64: its mantissa and exponent are in range. *)
Definition well_formed (x : pynum) : Prop :=
  match x with
  | PInt _ => True
  | PFloat f => valid_binary prec emax f = true
  end.

(** [reaches k s f]: [f] has sign [s] and is not zero; when finite, its
    exponent is at least [emin = -1074] and its leading bit is at position
    [k] or above, so that [|f| >= 2^(k-1)]; or [f] is not a number. *)
Definition reaches (k : Z) (s : bool) (f : float) : Prop :=
  match f with
  | S754_finite s' m e =>
      s' = s /\ (-1074 <= e)%Z /\ (k <= Zpos (digits2_pos m) + e)%Z
  | S754_infinity s' => s' = s
  | S754_nan => True
  | S754_zero _ => False
  end.

(** A float that is not below zero: a zero, positive, or not a number. *)
Definition float_nonneg (f : float) : Prop :=
  match f with
  | S754_finite true _ _ | S754_infinity true => False
  | _ => True
  end.

Definition nonneg (x : pynum) : Prop :=
  match x with
  | PInt z => (0 <= z)%Z
  | PFloat f => float_nonneg f
  end.

(** A positive integer, or a float that reaches bit [k]: with [k = -1073]
    any positive binary64, with [k = 1] one that is at least 1. *)
Definition positive_from (k : Z) (x : pynum) : Prop :=
  match x with
  | PInt z => (1 <= z)%Z
  | PFloat f => reaches k false f
  end.

(** Whether [1 + z / 100] is a number that is not below zero (or its
    computation overflows). *)
Definition growth_check (z : Z) : bool :=
  match (rate <- py_truediv (PInt z) (PInt 100) ;; py_add (PInt 1) rate)%py with
  | Ok (PFloat (S754_finite true _ _)) => false
  | Ok (PFloat (S754_infinity true)) => false
  | Ok (PFloat _) => true
  | Ok (PInt z) => (0 <=? z)%Z
  | Raise OverflowError => true
  | Raise ZeroDivisionError => false
  end.

(** *** Classes of numbers, for the analysis of overflow *)

Definition is_float (x : pynum) : Prop :=
  match x with PFloat _ => True | PInt _ => False end.

(** A number that has a float: a float, or an integer that [float()]
    accepts. *)
Definition converts (x : pynum) : Prop := is_ok (as_float x) = true.

(** An integer below [b] in absolute value, or any float. *)
Definition magnitude_below (b : Z) (x : pynum) : bool :=
  match x with PInt z => (Z.abs z <? b)%Z | PFloat _ => true end.

#[global] Instance numeric : Numeric pynum := {
  int_lit := PInt;
  dec_lit := py_dec;
  add := py_add;
  sub := py_sub;
  mul := py_mul;
  truediv := py_truediv;
  lt := py_lt;
  num_eq := py_eq
}.

End Binary64.

(* ------------------------------------------------------------------ *)
(** ** Exact rationals *)

Module Exact.

Definition q_add (x y : Q) : result Q := Ok (x + y).
Definition q_sub (x y : Q) : result Q := Ok (x - y).
Definition q_mul (x y : Q) : result Q := Ok (x * y).

Definition q_truediv (x y : Q) : result Q :=
  if Qeq_bool y 0 then Raise ZeroDivisionError else Ok (x / y).

Definition q_lt (x y : Q) : bool := negb (Qle_bool y x).

Definition q_dec (m : Z) (k : nat) : Q :=
  inject_Z m / inject_Z (10 ^ Z.of_nat k).

#[global] Instance numeric : Numeric Q := {
  int_lit := inject_Z;
  dec_lit := q_dec;
  add := q_add;
  sub := q_sub;
  mul := q_mul;
  truediv := q_truediv;
  lt := q_lt;
  num_eq := Qeq_bool
}.

End Exact.

(* ------------------------------------------------------------------ *)
(** ** The simulation *)

Module Sim.
Section Simulation.

Context {num : Type} `{Numeric num}.

(** The sidebar inputs [run_simulation] reads. *)
Record Params : Type := {
  initial_aum : num;
  monthly_growth : num;
  initial_supply : num;
  fee_bps : num;
  burn_pct : num;
  initial_price : num;
  liquidity_depth : num;
  user_tokens : num
}.

(** The variables the loop carries from one month to the next. *)
Record LoopState : Type := {
  current_supply : num;
  current_price : num;
  total_aum : num;
  monthly_new_aum : num
}.

(** The values of the loop body's variables where the row is appended. *)
Record Locals : Type := {
  l_total_aum : num;
  l_revenue_usd : num;
  l_tokens_bought : num;
  l_tokens_burned : num;
  l_current_mcap : num;
  l_dynamic_depth : num;
  l_price_move_pct : num;
  l_current_price : num;
  l_current_supply : num;
  l_monthly_new_aum : num;
  l_portfolio_value : num;
  l_total_token_value : num
}.

(** One row of the data frame. *)
Record Row : Type := {
  Month : Z;
  Total_AUM : num;
  New_AUM : num;
  Revenue : num;
  Token_Price : num;
  Supply : num;
  TTV : num;
  Tokens_Burned : num;
  Market_Depth : num;
  Portfolio_Value : num
}.

Definition CRITICAL_SUPPLY_THRESHOLD : num := int_lit 1000000.

(** [max(a, b)] keeps [a] unless [b > a]; on numbers [b > a] is [a < b]. *)
Definition py_max (a b : num) : num := if lt a b then b else a.

(** The unthrottled burn [tokens_bought * (burn_pct / 100)]. *)
Definition burn_of (P : Params) (tokens_bought : num) : result num :=
  pct <- truediv (burn_pct P) (int_lit 100) ;;
  mul tokens_bought pct.

(** The circuit breaker of lines 100-104. *)
Definition circuit_breaker (supply tokens_burned : num) : result num :=
  if lt supply CRITICAL_SUPPLY_THRESHOLD then
    supply_factor <- truediv supply CRITICAL_SUPPLY_THRESHOLD ;;
    t <- mul tokens_burned supply_factor ;;
    mul t (dec_lit 1 2)
  else Ok tokens_burned.

(** The body of the [for] loop, lines 89-126. *)
Definition iteration (P : Params) (fee_rate : num) (s : LoopState)
  : result Locals :=
  total <- add (total_aum s) (monthly_new_aum s) ;;
  revenue_usd <- mul (monthly_new_aum s) fee_rate ;;
  tokens_bought <- truediv revenue_usd (current_price s) ;;
  unthrottled <- burn_of P tokens_bought ;;
  tokens_burned <- circuit_breaker (current_supply s) unthrottled ;;
  current_mcap <- mul (current_supply s) (current_price s) ;;
  share <- mul current_mcap (dec_lit 1 2) ;;
  dynamic_depth <- add (liquidity_depth P) share ;;
  price_move_pct <- truediv revenue_usd dynamic_depth ;;
  factor <- add (int_lit 1) price_move_pct ;;
  price <- mul (current_price s) factor ;;
  reduced <- sub (current_supply s) tokens_burned ;;
  let supply := py_max (int_lit 0) reduced in
  rate <- truediv (monthly_growth P) (int_lit 100) ;;
  growth <- add (int_lit 1) rate ;;
  new_aum <- mul (monthly_new_aum s) growth ;;
  portfolio_value <- mul (user_tokens P) price ;;
  total_token_value <- mul supply price ;;
  Ok {| l_total_aum := total;
        l_revenue_usd := revenue_usd;
        l_tokens_bought := tokens_bought;
        l_tokens_burned := tokens_burned;
        l_current_mcap := current_mcap;
        l_dynamic_depth := dynamic_depth;
        l_price_move_pct := price_move_pct;
        l_current_price := price;
        l_current_supply := supply;
        l_monthly_new_aum := new_aum;
        l_portfolio_value := portfolio_value;
        l_total_token_value := total_token_value |}.

(** The dictionary appended at lines 128-139. *)
Definition row_of (i : Z) (l : Locals) : Row :=
  {| Month := i;
     Total_AUM := l_total_aum l;
     New_AUM := l_monthly_new_aum l;
     Revenue := l_revenue_usd l;
     Token_Price := l_current_price l;
     Supply := l_current_supply l;
     TTV := l_total_token_value l;
     Tokens_Burned := l_tokens_burned l;
     Market_Depth := l_dynamic_depth l;
     Portfolio_Value := l_portfolio_value l |}.

(** The loop variables as the next month finds them. *)
Definition next_state (l : Locals) : LoopState :=
  {| current_supply := l_current_supply l;
     current_price := l_current_price l;
     total_aum := l_total_aum l;
     monthly_new_aum := l_monthly_new_aum l |}.

(** [for i in range(i, i + n)], appending to [data]. *)
Fixpoint loop (P : Params) (fee_rate : num) (n : nat) (i : Z)
    (s : LoopState) (data : list Row) : result (list Row) :=
  match n with
  | O => Ok data
  | S n' =>
      l <- iteration P fee_rate s ;;
      loop P fee_rate n' (i + 1) (next_state l) (data ++ [row_of i l])
  end.

(** Lines 75-86: the state the loop starts from. *)
Definition initial_state (P : Params) : result LoopState :=
  seed <- mul (initial_aum P) (int_lit 1000000) ;;
  Ok {| current_supply := initial_supply P;
        current_price := initial_price P;
        total_aum := int_lit 0;
        monthly_new_aum := seed |}.

(** [run_simulation] with its local [months] as an argument. *)
Definition simulate (months : nat) (P : Params) : result (list Row) :=
  fee_rate <- truediv (fee_bps P) (int_lit 10000) ;;
  s <- initial_state P ;;
  loop P fee_rate months 1 s [].

Definition run_simulation (P : Params) : result (list Row) :=
  simulate 24 P.

(** *** Vocabulary of the specification *)

(** The loop variables as month [k + 1] finds them, from the state [s]. *)
Fixpoint state_after (P : Params) (fee_rate : num) (k : nat)
    (s : LoopState) : result LoopState :=
  match k with
  | O => Ok s
  | S k' =>
      l <- iteration P fee_rate s ;;
      state_after P fee_rate k' (next_state l)
  end.

(** The fee rate of line 79. *)
Definition fee_rate_of (P : Params) : result num :=
  truediv (fee_bps P) (int_lit 10000).

(** The loop variables as month [k + 1] of a run finds them. *)
Definition state_entering (P : Params) (k : nat) : result LoopState :=
  fee_rate <- fee_rate_of P ;;
  s <- initial_state P ;;
  state_after P fee_rate k s.

(** The variables of month [k + 1] of a run. *)
Definition period (P : Params) (k : nat) : result Locals :=
  fee_rate <- fee_rate_of P ;;
  s <- initial_state P ;;
  sk <- state_after P fee_rate k s ;;
  iteration P fee_rate sk.

(** The supply and the price month [k + 1] starts from, read off the
    inputs and the rows of the run: the initial value in month 1, the
    value the previous row records afterwards. *)
Definition supply_before (P : Params) (rows : list Row) (k : nat)
  : option num :=
  match k with
  | O => Some (initial_supply P)
  | S j => option_map Supply (nth_error rows j)
  end.

Definition price_before (P : Params) (rows : list Row) (k : nat)
  : option num :=
  match k with
  | O => Some (initial_price P)
  | S j => option_map Token_Price (nth_error rows j)
  end.

(** Python's [x <= y]. *)
Definition leq (x y : num) : bool := lt x y || num_eq x y.

(** The constraints the parameter table puts on the inputs of the
    engine: price, depth and supply positive, new AUM non-negative, the
    fee within 0..10000 basis points and the burn within 0..100 percent. *)
Definition valid (P : Params) : bool :=
  lt (int_lit 0) (initial_price P)
  && lt (int_lit 0) (liquidity_depth P)
  && lt (int_lit 0) (initial_supply P)
  && leq (int_lit 0) (initial_aum P)
  && leq (int_lit 0) (fee_bps P)
  && leq (fee_bps P) (int_lit 10000)
  && leq (int_lit 0) (burn_pct P)
  && leq (burn_pct P) (int_lit 100).

(** Two parameter sets that differ at most in [user_tokens]. *)
Definition same_but_holdings (P1 P2 : Params) : Prop :=
  initial_aum P1 = initial_aum P2
  /\ monthly_growth P1 = monthly_growth P2
  /\ initial_supply P1 = initial_supply P2
  /\ fee_bps P1 = fee_bps P2
  /\ burn_pct P1 = burn_pct P2
  /\ initial_price P1 = initial_price P2
  /\ liquidity_depth P1 = liquidity_depth P2.

(** Two rows that differ at most in the portfolio value. *)
Definition same_but_portfolio (r1 r2 : Row) : Prop :=
  Month r1 = Month r2
  /\ Total_AUM r1 = Total_AUM r2
  /\ New_AUM r1 = New_AUM r2
  /\ Revenue r1 = Revenue r2
  /\ Token_Price r1 = Token_Price r2
  /\ Supply r1 = Supply r2
  /\ TTV r1 = TTV r2
  /\ Tokens_Burned r1 = Tokens_Burned r2
  /\ Market_Depth r1 = Market_Depth r2.

(** The burn of a month that starts with [supply], given the
    unthrottled burn, as the specification words the circuit breaker. *)
Definition throttled (supply unthrottled : num) : result num :=
  supply_factor <- truediv supply (int_lit 1000000) ;;
  scaled <- mul unthrottled supply_factor ;;
  mul scaled (dec_lit 1 2).

(** The unthrottled burn of a month that starts in [s]:
    [revenue / currentPrice * (burnPct / 100)]. *)
Definition unthrottled_burn (P : Params) (revenue : num) (s : LoopState)
  : result num :=
  bought <- truediv revenue (current_price s) ;;
  pct <- truediv (burn_pct P) (int_lit 100) ;;
  mul bought pct.

(** The figures of the scenario's first period. *)
Definition scenario_figures (s : LoopState) (l : Locals) : bool :=
  num_eq (monthly_new_aum s) (int_lit 10000000)
  && num_eq (l_revenue_usd l) (int_lit 25000)
  && num_eq (l_tokens_bought l) (int_lit 50000)
  && num_eq (l_tokens_burned l) (int_lit 25000)
  && negb (lt (current_supply s) CRITICAL_SUPPLY_THRESHOLD)
  && num_eq (l_current_mcap l) (int_lit 50000000)
  && num_eq (l_dynamic_depth l) (int_lit 1000000)
  && num_eq (l_price_move_pct l) (dec_lit 25 3)
  && num_eq (l_current_price l) (dec_lit 5125 4)
  && num_eq (l_current_supply l) (int_lit 99975000).

(** Whether, row after row from the given supply, price and total AUM, the
    supply stays non-negative and does not rise, the price stays positive
    and does not fall, and the total AUM rises. *)
Fixpoint steady (supply price aum : num) (rows : list Row) : bool :=
  match rows with
  | [] => true
  | r :: rest =>
      leq (int_lit 0) (Supply r)
      && leq (Supply r) supply
      && lt (int_lit 0) (Token_Price r)
      && leq price (Token_Price r)
      && lt aum (Total_AUM r)
      && steady (Supply r) (Token_Price r) (Total_AUM r) rest
  end.

(** Whether the run returns and its rows are steady from the inputs. *)
Definition steady_run (P : Params) : bool :=
  match run_simulation P with
  | Ok rows => steady (initial_supply P) (initial_price P) (int_lit 0) rows
  | Raise _ => false
  end.

(** Whether the revenue of a row is its new AUM times the fee rate. *)
Definition revenue_matches_new_aum (P : Params) (r : Row) : result bool :=
  fee_rate <- fee_rate_of P ;;
  expected <- mul (New_AUM r) fee_rate ;;
  Ok (num_eq (Revenue r) expected).

(** A parameter set from its eight values. *)
Definition params_of (aum growth supply fee burn : Z) (price : num)
    (depth tokens : Z) : Params :=
  {| initial_aum := int_lit aum;
     monthly_growth := int_lit growth;
     initial_supply := int_lit supply;
     fee_bps := int_lit fee;
     burn_pct := int_lit burn;
     initial_price := price;
     liquidity_depth := int_lit depth;
     user_tokens := int_lit tokens |}.

End Simulation.

Arguments Params num : clear implicits.
Arguments LoopState num : clear implicits.
Arguments Locals num : clear implicits.
Arguments Row num : clear implicits.

End Sim.

Import Sim.

(* ------------------------------------------------------------------ *)
(** ** Concrete parameter sets *)

(** The values the sidebar widgets start with, which are the values of
    the specification's scenario. *)
Definition defaults {num : Type} `{Numeric num} : Params num :=
  params_of 10 1 100000000 25 50 (dec_lit 50 2) 500000 1000000.


(** Growth of -200 percent, a fee of 100 percent and a market depth equal
    to the monthly revenue: the price is exactly zero after month 2. *)
Definition collapsing {num : Type} `{Numeric num} : Params num :=
  params_of 1 (-200) 1 10000 100 (dec_lit 1 3) 1000000 1000000.

(** The largest new AUM and fee the sidebar accepts, no growth, one token
    of supply and one dollar of depth: the price grows by a factor of
    about 10^20 a month. *)
Definition overflowing {num : Type} `{Numeric num} : Params num :=
  params_of 9007199254740991 0 1 150 100 (dec_lit 50 2) 1 1000000.

(** The defaults with a supply of 10^309 tokens, an integer above every
    binary64. *)
Definition huge {num : Type} `{Numeric num} : Params num :=
  params_of 10 1 (10 ^ 309) 25 50 (dec_lit 50 2) 500000 1000000.


(** What the loop maintains in binary64 arithmetic: a price that is
    positive or not a number, and a supply and a new AUM that are not
    below zero. *)
Definition sound64 (s : LoopState Binary64.pynum) : Prop :=
  Binary64.positive_from (-1073) (current_price s)
  /\ Binary64.nonneg (current_supply s)
  /\ Binary64.nonneg (monthly_new_aum s).

Definition row_sound64 (r : Row Binary64.pynum) : Prop :=
  Binary64.positive_from (-1073) (Token_Price r)
  /\ Binary64.nonneg (Supply r)
  /\ Binary64.positive_from (-1073) (Market_Depth r).

(** A growth rate of at least -100 percent, as the sidebar can give it: a
    number that is not below zero, or an integer from -100 up. *)
Definition growth_bounded (g : Binary64.pynum) : Prop :=
  leq (int_lit 0) g = true
  \/ exists z, g = Binary64.PInt z /\ (-100 <= z)%Z.

(** What the loop maintains on the types of its variables in binary64
    arithmetic: the price is a float, and the supply, the new AUM and the
    cumulative AUM have a float each. *)
Definition typed (s : LoopState Binary64.pynum) : Prop :=
  Binary64.is_float (current_price s)
  /\ Binary64.converts (current_supply s)
  /\ is_ok (truediv (current_supply s) (int_lit 1000000)) = true
  /\ Binary64.converts (monthly_new_aum s)
  /\ Binary64.converts (total_aum s)
  /\ (Binary64.is_float (monthly_new_aum s)
      \/ total_aum s = Binary64.PInt 0).

(** The conversions of the inputs to float succeed. *)
Definition convertible (P : Params Binary64.pynum) : Prop :=
  Binary64.is_float (initial_price P)
  /\ Binary64.converts (initial_supply P)
  /\ is_ok (truediv (initial_supply P) (int_lit 1000000)) = true
  /\ Binary64.converts (liquidity_depth P)
  /\ Binary64.converts (user_tokens P)
  /\ is_ok (truediv (fee_bps P) (int_lit 10000)) = true
  /\ is_ok (truediv (burn_pct P) (int_lit 100)) = true
  /\ is_ok (truediv (monthly_growth P) (int_lit 100)) = true
  /\ (exists seed,
        mul (initial_aum P) (int_lit 1000000) = Ok seed
        /\ Binary64.converts seed).

(** The inputs as the widgets give them: a float price, and integers (or
    floats) that have a nearest binary64, the seed also after its
    multiplication by one million. *)
Definition in_range (P : Params Binary64.pynum) : bool :=
  match initial_price P with
  | Binary64.PFloat _ => true
  | Binary64.PInt _ => false
  end
  && Binary64.magnitude_below (2 ^ 1003)%Z (initial_aum P)
  && Binary64.magnitude_below (2 ^ 1023)%Z (initial_supply P)
  && Binary64.magnitude_below (2 ^ 1023)%Z (liquidity_depth P)
  && Binary64.magnitude_below (2 ^ 1023)%Z (user_tokens P)
  && Binary64.magnitude_below (2 ^ 1023)%Z (fee_bps P)
  && Binary64.magnitude_below (2 ^ 1023)%Z (burn_pct P)
  && Binary64.magnitude_below (2 ^ 1023)%Z (monthly_growth P).

(** *** Vocabulary of the further properties *)



(** A float that is a zero of either sign or not a number. *)
Definition zero_or_nan (x : Binary64.pynum) : Prop :=
  match x with
  | Binary64.PFloat (S754_zero _) | Binary64.PFloat S754_nan => True
  | _ => False
  end.

(** The fields of a row that are floats whatever the inputs; the supply is
    a float or the integer [0] of the clamp. *)
Definition float_columns (r : Row Binary64.pynum) : Prop :=
  Binary64.is_float (New_AUM r)
  /\ Binary64.is_float (Revenue r)
  /\ Binary64.is_float (Token_Price r)
  /\ Binary64.is_float (TTV r)
  /\ Binary64.is_float (Tokens_Burned r)
  /\ Binary64.is_float (Market_Depth r)
  /\ Binary64.is_float (Portfolio_Value r)
  /\ (Binary64.is_float (Supply r) \/ Supply r = Binary64.PInt 0).

(** What [st.sidebar.slider(label, min_value, max_value, value)] returns
    for integer arguments: an integer within the bounds. *)
Definition slider (min_value max_value : Z) (x : Binary64.pynum) : bool :=
  match x with
  | Binary64.PInt z => ((min_value <=? z) && (z <=? max_value))%Z
  | Binary64.PFloat _ => false
  end.

(** What [st.sidebar.number_input] returns: an integer when its default
    [value] is one (lines 50, 54, 60 and 70), a float that is a binary64
    when it is a float (line 57).  No call gives a minimum or a maximum. *)
Definition integer_input (x : Binary64.pynum) : bool :=
  match x with
  | Binary64.PInt _ => true
  | Binary64.PFloat _ => false
  end.

Definition float_input (x : Binary64.pynum) : bool :=
  match x with
  | Binary64.PInt _ => false
  | Binary64.PFloat f => valid_binary Binary64.prec Binary64.emax f
  end.

(** The inputs the widgets of lines 50-70 can give. *)
Definition sidebar (P : Params Binary64.pynum) : bool :=
  integer_input (initial_aum P)
  && slider 0 20 (monthly_growth P)
  && integer_input (initial_supply P)
  && slider 5 150 (fee_bps P)
  && slider 0 100 (burn_pct P)
  && float_input (initial_price P)
  && integer_input (liquidity_depth P)
  && integer_input (user_tokens P).

(* ------------------------------------------------------------------ *)
(** ** The shape of a run, in any arithmetic *)

Lemma bind_ok {A B : Type} (c : result A) (k : A -> result B) (b : B) :
  bind c k = Ok b -> exists a, c = Ok a /\ k a = Ok b.
Proof.
  destruct c as [a | e]; simpl; intros E.
  - exists a; split; [reflexivity | exact E].
  - discriminate E.
Qed.

(** Splits a successful chain of binds into its successful steps. *)
Ltac unbind H :=
  let a := fresh "v" in
  let E := fresh "E" in
  apply bind_ok in H; destruct H as [a [E H]].

Section Shape.

Context {num : Type} `{Numeric num}.
Variable P : Params num.
Variable fee_rate : num.

(** Appending to [data] commutes with running the loop. *)
Lemma loop_append (n : nat) :
  forall i s data,
    loop P fee_rate n i s data =
    (rows <- loop P fee_rate n i s [] ;; Ok (data ++ rows)).
Proof.
  induction n as [| n IH]; intros i s data; simpl.
  - now rewrite app_nil_r.
  - destruct (iteration P fee_rate s) as [l | e]; simpl; [| reflexivity].
    rewrite (IH (i + 1)%Z (next_state l) (data ++ [row_of i l])).
    rewrite (IH (i + 1)%Z (next_state l) [row_of i l]).
    destruct (loop P fee_rate n (i + 1) (next_state l) []) as [rows | e];
      simpl; [| reflexivity].
    now rewrite <- app_assoc.
Qed.

(** A successful loop of [S n] months is a successful first month
    followed by a successful loop of [n] months. *)
Lemma loop_step (n : nat) (i : Z) (s : LoopState num) (rows : list (Row num)) :
  loop P fee_rate (S n) i s [] = Ok rows ->
  exists l rest,
    iteration P fee_rate s = Ok l
    /\ loop P fee_rate n (i + 1) (next_state l) [] = Ok rest
    /\ rows = row_of i l :: rest.
Proof.
  simpl; intros E. unbind E. rewrite loop_append in E. unbind E.
  injection E as <-. now exists v, v0.
Qed.

Lemma loop_length (n : nat) :
  forall i s rows,
    loop P fee_rate n i s [] = Ok rows -> length rows = n.
Proof.
  induction n as [| n IH]; intros i s rows E.
  - simpl in E. injection E as <-. reflexivity.
  - apply loop_step in E. destruct E as (l & rest & _ & E & ->).
    simpl. f_equal. exact (IH _ _ _ E).
Qed.

Lemma loop_months (n : nat) :
  forall i s rows,
    loop P fee_rate n i s [] = Ok rows ->
    map (@Month num) rows = map (fun k => (i + Z.of_nat k)%Z) (seq 0 n).
Proof.
  induction n as [| n IH]; intros i s rows E.
  - simpl in E. injection E as <-. reflexivity.
  - apply loop_step in E. destruct E as (l & rest & _ & E & ->).
    simpl. rewrite Z.add_0_r. f_equal.
    rewrite (IH _ _ _ E), <- seq_shift, map_map.
    apply map_ext. intros k. lia.
Qed.

(** Row [k] of a successful loop is the row of the iteration run from
    the state [k] iterations in. *)
Lemma loop_nth (n : nat) :
  forall i s rows k r,
    loop P fee_rate n i s [] = Ok rows ->
    nth_error rows k = Some r ->
    exists sk l,
      state_after P fee_rate k s = Ok sk
      /\ iteration P fee_rate sk = Ok l
      /\ r = row_of (i + Z.of_nat k) l.
Proof.
  induction n as [| n IH]; intros i s rows k r E N.
  - simpl in E. injection E as <-. destruct k; discriminate N.
  - apply loop_step in E. destruct E as (l & rest & I & E & ->).
    destruct k as [| k].
    + simpl in N. injection N as <-.
      exists s, l. simpl. rewrite Z.add_0_r. repeat split; assumption.
    + simpl in N.
      destruct (IH _ _ _ _ _ E N) as (sk & lk & A & B & ->).
      exists sk, lk. simpl. rewrite I. simpl.
      repeat split; try assumption. f_equal. lia.
Qed.

(** An invariant of the iteration holds in every state of a run. *)
Lemma state_after_invariant (Inv : LoopState num -> Prop) :
  (forall s l, Inv s -> iteration P fee_rate s = Ok l -> Inv (next_state l)) ->
  forall k s sk,
    Inv s -> state_after P fee_rate k s = Ok sk -> Inv sk.
Proof.
  intros step. induction k as [| k IH]; intros s sk I E; simpl in E.
  - injection E as <-. exact I.
  - unbind E. exact (IH _ _ (step _ _ I E0) E).
Qed.


(** One more month of the trajectory. *)
Lemma state_after_S (k : nat) :
  forall s sk l,
    state_after P fee_rate k s = Ok sk ->
    iteration P fee_rate sk = Ok l ->
    state_after P fee_rate (S k) s = Ok (next_state l).
Proof.
  induction k as [| k IH]; intros s sk l E I.
  - simpl in E. injection E as <-. simpl. rewrite I. reflexivity.
  - simpl in E. unbind E.
    change (state_after P fee_rate (S (S k)) s)
      with (l0 <- iteration P fee_rate s ;;
            state_after P fee_rate (S k) (next_state l0)).
    rewrite E0. simpl. exact (IH _ _ _ E I).
Qed.

End Shape.

Section Run.

Context {num : Type} `{Numeric num}.

(** A successful run is a successful loop from the initial state. *)
Lemma simulate_ok (months : nat) (P : Params num) (rows : list (Row num)) :
  simulate months P = Ok rows ->
  exists fee_rate s0,
    fee_rate_of P = Ok fee_rate
    /\ initial_state P = Ok s0
    /\ loop P fee_rate months 1 s0 [] = Ok rows.
Proof.
  unfold simulate. intros E. unbind E. unbind E.
  exists v, v0. repeat split; assumption.
Qed.

(** Row [k] of a run records month [k + 1], whose variables are those
    of [period P k]. *)
Lemma simulate_nth (months : nat) (P : Params num) (rows : list (Row num))
    (k : nat) (r : Row num) :
  simulate months P = Ok rows ->
  nth_error rows k = Some r ->
  exists fee_rate s l,
    fee_rate_of P = Ok fee_rate
    /\ state_entering P k = Ok s
    /\ iteration P fee_rate s = Ok l
    /\ period P k = Ok l
    /\ state_entering P (S k) = Ok (next_state l)
    /\ r = row_of (Z.of_nat (S k)) l.
Proof.
  intros E N. apply simulate_ok in E. destruct E as (fr & s0 & F & I & L).
  destruct (loop_nth _ _ _ _ _ _ _ _ L N) as (sk & l & A & B & ->).
  exists fr, sk, l. unfold state_entering, period. rewrite F, I.
  cbn [bind]. rewrite (state_after_S _ _ _ _ _ _ A B), A.
  cbn [bind]. rewrite B.
  repeat split. f_equal. lia.
Qed.

End Run.

(* ------------------------------------------------------------------ *)
(** ** One iteration, step by step *)

Section Iteration.

Context {num : Type} `{Numeric num}.
Variable P : Params num.
Variable fee_rate : num.

(** What a successful iteration computed, one assignment at a time. *)
Lemma iteration_ok (s : LoopState num) (l : Locals num) :
  iteration P fee_rate s = Ok l ->
  add (total_aum s) (monthly_new_aum s) = Ok (l_total_aum l)
  /\ mul (monthly_new_aum s) fee_rate = Ok (l_revenue_usd l)
  /\ truediv (l_revenue_usd l) (current_price s) = Ok (l_tokens_bought l)
  /\ (exists unthrottled,
        burn_of P (l_tokens_bought l) = Ok unthrottled
        /\ circuit_breaker (current_supply s) unthrottled
           = Ok (l_tokens_burned l))
  /\ mul (current_supply s) (current_price s) = Ok (l_current_mcap l)
  /\ (exists share,
        mul (l_current_mcap l) (dec_lit 1 2) = Ok share
        /\ add (liquidity_depth P) share = Ok (l_dynamic_depth l))
  /\ truediv (l_revenue_usd l) (l_dynamic_depth l) = Ok (l_price_move_pct l)
  /\ (exists factor,
        add (int_lit 1) (l_price_move_pct l) = Ok factor
        /\ mul (current_price s) factor = Ok (l_current_price l))
  /\ (exists reduced,
        sub (current_supply s) (l_tokens_burned l) = Ok reduced
        /\ l_current_supply l = py_max (int_lit 0) reduced)
  /\ (exists rate growth,
        truediv (monthly_growth P) (int_lit 100) = Ok rate
        /\ add (int_lit 1) rate = Ok growth
        /\ mul (monthly_new_aum s) growth = Ok (l_monthly_new_aum l))
  /\ mul (user_tokens P) (l_current_price l) = Ok (l_portfolio_value l)
  /\ mul (l_current_supply l) (l_current_price l)
     = Ok (l_total_token_value l).
Proof.
  unfold iteration. intros E. do 17 unbind E. injection E as <-. simpl.
  repeat match goal with
         | |- _ /\ _ => split
         | |- exists _, _ => eexists
         end; eassumption || reflexivity.
Qed.

End Iteration.

(* ------------------------------------------------------------------ *)
(** ** Properties of the rows, in any arithmetic *)

Section Rows.

Context {num : Type} `{Numeric num}.

(** The state a run enters month 1 in holds the initial supply and
    price. *)
Lemma state_entering_first (P : Params num) (s : LoopState num) :
  state_entering P 0 = Ok s ->
  current_supply s = initial_supply P /\ current_price s = initial_price P.
Proof.
  unfold state_entering, initial_state. intros E. do 2 unbind E.
  unbind E1. simpl in E. injection E1 as <-. injection E as <-. now split.
Qed.

(** The supply and the price a month starts from are the ones the
    previous row records. *)
Lemma state_entering_before (months : nat) (P : Params num)
    (rows : list (Row num)) (k : nat) (r : Row num) (s : LoopState num) :
  simulate months P = Ok rows ->
  nth_error rows k = Some r ->
  state_entering P k = Ok s ->
  supply_before P rows k = Some (current_supply s)
  /\ price_before P rows k = Some (current_price s).
Proof.
  intros E N St. destruct k as [| j]; simpl.
  - destruct (state_entering_first _ _ St) as [-> ->]. now split.
  - assert (J : (j < length rows)%nat).
    { apply Nat.lt_succ_l. apply nth_error_Some. congruence. }
    apply nth_error_Some in J.
    destruct (nth_error rows j) as [rj |] eqn:Nj; [| congruence].
    destruct (simulate_nth _ _ _ _ _ E Nj)
      as (fr & sj & l & _ & _ & _ & _ & St' & ->).
    rewrite St in St'. injection St' as ->. now split.
Qed.

(** C2. In every month the burn is decided by the supply the month starts
    from: below the threshold of 1,000,000 tokens the recorded burn is the
    unthrottled burn [revenue / price * (burn_pct / 100)] times
    [supply / 1,000,000] times [0.01]; otherwise, so whenever the supply is
    at least 1,000,000, it is the unthrottled burn itself.  The supply and
    the price are those month [k + 1] starts from: the initial ones in
    month 1, the ones recorded by the previous row afterwards. *)
Theorem burn_is_throttled_below_threshold (months : nat) (P : Params num)
    (rows : list (Row num)) (k : nat) (r : Row num) :
  simulate months P = Ok rows ->
  nth_error rows k = Some r ->
  exists s unthrottled,
    state_entering P k = Ok s
    /\ supply_before P rows k = Some (current_supply s)
    /\ price_before P rows k = Some (current_price s)
    /\ unthrottled_burn P (Revenue r) s = Ok unthrottled
    /\ (lt (current_supply s) (int_lit 1000000) = true ->
        throttled (current_supply s) unthrottled = Ok (Tokens_Burned r))
    /\ (lt (current_supply s) (int_lit 1000000) = false ->
        Tokens_Burned r = unthrottled).
Proof.
  intros E N.
  destruct (simulate_nth _ _ _ _ _ E N)
    as (fr & s & l & _ & St & I & _ & _ & ->).
  destruct (state_entering_before _ _ _ _ _ _ E N St) as [SB PB].
  apply iteration_ok in I.
  destruct I as (_ & _ & B & (u & U & C) & _).
  exists s, u. simpl. repeat split; try assumption.
  - unfold unthrottled_burn. rewrite B. exact U.
  - intros L. unfold circuit_breaker, CRITICAL_SUPPLY_THRESHOLD in C.
    rewrite L in C. exact C.
  - intros L. unfold circuit_breaker, CRITICAL_SUPPLY_THRESHOLD in C.
    rewrite L in C. now injection C.
Qed.

(** C5. In every row the total token value is the recorded supply times
    the recorded price and the portfolio value is [user_tokens] times the
    recorded price, where the recorded supply and price are the updated
    ones: those the next month starts from. *)
Theorem row_values_are_products (months : nat) (P : Params num)
    (rows : list (Row num)) (k : nat) (r : Row num) :
  simulate months P = Ok rows ->
  nth_error rows k = Some r ->
  mul (Supply r) (Token_Price r) = Ok (TTV r)
  /\ mul (user_tokens P) (Token_Price r) = Ok (Portfolio_Value r)
  /\ exists s',
       state_entering P (S k) = Ok s'
       /\ Supply r = current_supply s'
       /\ Token_Price r = current_price s'.
Proof.
  intros E N.
  destruct (simulate_nth _ _ _ _ _ E N)
    as (fr & s & l & _ & _ & I & _ & St' & ->).
  apply iteration_ok in I.
  destruct I as (_ & _ & _ & _ & _ & _ & _ & _ & _ & _ & V & T).
  simpl. repeat split; try assumption.
  exists (next_state l). now repeat split.
Qed.


(** A run of [months] months returns [months] rows, numbered from 1 in
    this order. *)
Lemma simulate_shape (months : nat) (P : Params num) (rows : list (Row num)) :
  simulate months P = Ok rows ->
  length rows = months
  /\ map (@Month num) rows = map Z.of_nat (seq 1 months).
Proof.
  intros E. apply simulate_ok in E. destruct E as (fr & s0 & _ & _ & L).
  split.
  - exact (loop_length _ _ _ _ _ _ L).
  - rewrite (loop_months _ _ _ _ _ _ L), <- seq_shift, map_map.
    apply map_ext. intros k. lia.
Qed.

End Rows.

(* ------------------------------------------------------------------ *)
(** ** The holdings of the observer do not reach the engine *)

Section Holdings.

Context {num : Type} `{Numeric num}.

(** Every variable of an iteration but the portfolio value is the same
    under two parameter sets that differ in [user_tokens] only. *)
Lemma iteration_same_but_holdings (P1 P2 : Params num) (fee_rate : num)
    (s : LoopState num) (l1 l2 : Locals num) (i : Z) :
  same_but_holdings P1 P2 ->
  iteration P1 fee_rate s = Ok l1 ->
  iteration P2 fee_rate s = Ok l2 ->
  next_state l1 = next_state l2
  /\ same_but_portfolio (row_of i l1) (row_of i l2).
Proof.
  intros (A & G & _ & _ & B & _ & D) E1 E2.
  unfold iteration, burn_of in E1, E2.
  rewrite <- G, <- B, <- D in E2.
  do 4 unbind E1. do 4 unbind E2.
  repeat match goal with
         | X : ?c = Ok ?x, Y : ?c = Ok ?y |- _ =>
             rewrite X in Y; injection Y as <-
         end.
  do 13 (unbind E1; unbind E2;
         repeat match goal with
                | X : ?c = Ok ?x, Y : ?c = Ok ?y |- _ =>
                    rewrite X in Y; injection Y as <-
                end).
  injection E1 as <-. injection E2 as <-.
  unfold same_but_portfolio, next_state. simpl. repeat split.
Qed.

Lemma loop_same_but_holdings (P1 P2 : Params num) (fee_rate : num)
    (n : nat) :
  same_but_holdings P1 P2 ->
  forall i s rows1 rows2,
    loop P1 fee_rate n i s [] = Ok rows1 ->
    loop P2 fee_rate n i s [] = Ok rows2 ->
    Forall2 same_but_portfolio rows1 rows2.
Proof.
  intros Same. induction n as [| n IH]; intros i s rows1 rows2 E1 E2.
  - simpl in E1, E2. injection E1 as <-. injection E2 as <-. constructor.
  - apply loop_step in E1. destruct E1 as (l1 & rest1 & I1 & E1 & ->).
    apply loop_step in E2. destruct E2 as (l2 & rest2 & I2 & E2 & ->).
    destruct (iteration_same_but_holdings _ _ _ _ _ _ i Same I1 I2)
      as [Next Row].
    rewrite <- Next in E2. constructor; [exact Row |].
    exact (IH _ _ _ _ E1 E2).
Qed.

(** C10. Two runs whose parameter sets differ only in [user_tokens]
    produce rows that agree, month by month, in every field but the
    portfolio value: month, total AUM, new AUM, revenue, price, supply,
    total token value, burn and depth are the same. *)
Theorem holdings_only_reach_portfolio (months : nat) (P1 P2 : Params num)
    (rows1 rows2 : list (Row num)) :
  same_but_holdings P1 P2 ->
  simulate months P1 = Ok rows1 ->
  simulate months P2 = Ok rows2 ->
  Forall2 same_but_portfolio rows1 rows2.
Proof.
  intros Same E1 E2.
  apply simulate_ok in E1. destruct E1 as (fr1 & s1 & F1 & I1 & L1).
  apply simulate_ok in E2. destruct E2 as (fr2 & s2 & F2 & I2 & L2).
  pose proof Same as (A & _ & S & F & _ & Pr & _).
  unfold fee_rate_of in F1, F2. rewrite <- F, F1 in F2. injection F2 as <-.
  unfold initial_state in I1, I2. rewrite <- A, <- S, <- Pr in I2.
  rewrite I1 in I2. injection I2 as <-.
  exact (loop_same_but_holdings _ _ _ _ Same _ _ _ _ L1 L2).
Qed.

End Holdings.

(* ------------------------------------------------------------------ *)
(** ** Exact arithmetic: the operations *)

Section ExactOps.

Local Open Scope Q_scope.


Lemma sub_exact (x y z : Q) : sub x y = Ok z -> z = x - y.
Proof. intros E. now injection E. Qed.

Lemma mul_exact (x y z : Q) : mul x y = Ok z -> z = x * y.
Proof. intros E. now injection E. Qed.

Lemma truediv_exact (x y z : Q) :
  truediv x y = Ok z -> ~ y == 0 /\ z = x / y.
Proof.
  cbn. unfold Exact.q_truediv. destruct (Qeq_bool y 0) eqn:Z; intros E.
  - discriminate E.
  - split; [now apply Qeq_bool_neq | now injection E].
Qed.

Lemma truediv_total (x y : Q) : ~ y == 0 -> truediv x y = Ok (x / y).
Proof.
  intros N. cbn. unfold Exact.q_truediv.
  destruct (Qeq_bool y 0) eqn:Z; [| reflexivity].
  now apply Qeq_bool_iff in Z.
Qed.

Lemma lt_exact (x y : Q) : lt x y = true <-> x < y.
Proof.
  cbn. unfold Exact.q_lt. rewrite negb_true_iff.
  split; intros L.
  - apply Qnot_le_lt. intros C. apply Qle_bool_iff in C. congruence.
  - destruct (Qle_bool y x) eqn:C; [| reflexivity].
    apply Qle_bool_iff in C. exfalso. exact (Qlt_not_le _ _ L C).
Qed.

Lemma lt_exact_false (x y : Q) : lt x y = false <-> y <= x.
Proof.
  cbn. unfold Exact.q_lt. rewrite negb_false_iff. apply Qle_bool_iff.
Qed.


(** [max(0, x)] is [x] clamped at zero. *)
Lemma py_max_exact (x : Q) :
  0 <= py_max (int_lit 0) x
  /\ x <= py_max (int_lit 0) x
  /\ (py_max (int_lit 0) x = x \/ py_max (int_lit 0) x = 0).
Proof.
  unfold py_max. destruct (lt (int_lit 0) x) eqn:L.
  - apply lt_exact in L. change (int_lit 0) with 0 in L.
    repeat split; [now apply Qlt_le_weak | apply Qle_refl | now left].
  - apply lt_exact_false in L. change (int_lit 0) with 0 in *.
    repeat split; [apply Qle_refl | exact L | now right].
Qed.





End ExactOps.

(* ------------------------------------------------------------------ *)
(** ** Exact arithmetic: one iteration *)

Section ExactIteration.

Local Open Scope Q_scope.

Variable P : Params Q.
Variable fee_rate : Q.

Hypothesis fee_nonneg : 0 <= fee_rate.
Hypothesis burn_nonneg : 0 <= burn_pct P.
Hypothesis depth_positive : 0 < liquidity_depth P.
Hypothesis growth_bounded : -100 <= monthly_growth P.







End ExactIteration.

(* ------------------------------------------------------------------ *)
(** ** Exact arithmetic: the run *)

Section ExactRun.

Local Open Scope Q_scope.

Variable P : Params Q.
Hypothesis inputs_valid : valid P = true.
Hypothesis growth_bounded : -100 <= monthly_growth P.




End ExactRun.

(* ------------------------------------------------------------------ *)
(** ** Exact arithmetic: the invariants of a run *)

Section Invariants.

Local Open Scope Q_scope.

Variable P : Params Q.
Variable months : nat.




End Invariants.

Section Returns.

Local Open Scope Q_scope.


End Returns.

Section Growth.

Local Open Scope Q_scope.

Variable P : Params Q.
Hypothesis growth_nonneg : 0 <= monthly_growth P.



End Growth.

(* ------------------------------------------------------------------ *)
(** ** Binary64 arithmetic: rounding keeps the leading bit *)

Section Binary64Rounding.

Import Binary64.
Local Open Scope Z_scope.

Lemma digits2_size p : digits2_pos p = Pos.size p.
Proof. induction p as [p IH | p IH |]; simpl; now rewrite ?IH. Qed.

Lemma digits2_log2 p : Zpos (digits2_pos p) = Z.log2 (Zpos p) + 1.
Proof.
  rewrite digits2_size. destruct p as [p | p |]; simpl; try reflexivity;
    now rewrite Pos2Z.inj_succ.
Qed.

Lemma shr_1_div2 mrs : 0 <= shr_m mrs -> shr_m (shr_1 mrs) = shr_m mrs / 2.
Proof.
  destruct mrs as [m r s]. simpl. intros M.
  destruct m as [| p | p]; [reflexivity | | lia].
  destruct p as [p | p |]; simpl.
  - rewrite Pos2Z.inj_xI. apply (Z.div_unique _ 2 _ 1); lia.
  - rewrite Pos2Z.inj_xO. apply (Z.div_unique _ 2 _ 0); lia.
  - reflexivity.
Qed.

Lemma shr_m_iter n :
  forall mrs, 0 <= shr_m mrs ->
    shr_m (iter_pos shr_1 n mrs) = shr_m mrs / 2 ^ Zpos n.
Proof.
  induction n as [n IH | n IH |]; intros mrs M; simpl iter_pos.
  - assert (A : 0 <= shr_m (shr_1 mrs)).
    { rewrite shr_1_div2 by exact M. apply Z.div_pos; lia. }
    assert (B : 0 <= shr_m (iter_pos shr_1 n (shr_1 mrs))).
    { rewrite IH by exact A. apply Z.div_pos; [exact A | lia]. }
    rewrite IH by exact B. rewrite IH by exact A. rewrite shr_1_div2 by exact M.
    rewrite !Z.div_div by lia. f_equal.
    replace (Z.pos n~1) with (Z.pos n + Z.pos n + 1) by lia.
    rewrite !Z.pow_add_r, Z.pow_1_r by lia. ring.
  - assert (B : 0 <= shr_m (iter_pos shr_1 n mrs)).
    { rewrite IH by exact M. apply Z.div_pos; [exact M | lia]. }
    rewrite IH by exact B. rewrite IH by exact M.
    rewrite Z.div_div by lia. f_equal.
    replace (Z.pos n~0) with (Z.pos n + Z.pos n) by lia.
    rewrite Z.pow_add_r by lia. ring.
  - rewrite shr_1_div2 by exact M. reflexivity.
Qed.

Lemma Zdigits2_log2 m : 0 < m -> Zdigits2 m = Z.log2 m + 1.
Proof. destruct m as [| p | p]; try lia. intros _. apply digits2_log2. Qed.

Lemma fexp_eq t : fexp prec emax t = Z.max (t - 53) (-1074).
Proof. reflexivity. Qed.

(** Shifting to the exponent of the format keeps the leading bit. *)
Lemma shr_keeps_top (m : Z) (r s : bool) (e : Z) :
  0 < m -> -1074 < Zdigits2 m + e ->
  0 < shr_m (fst (shr (Build_shr_record m r s) e
                      (fexp prec emax (Zdigits2 m + e) - e)))
  /\ Zdigits2 (shr_m (fst (shr (Build_shr_record m r s) e
                             (fexp prec emax (Zdigits2 m + e) - e))))
     + snd (shr (Build_shr_record m r s) e
                (fexp prec emax (Zdigits2 m + e) - e))
     = Zdigits2 m + e
  /\ -1074 <= snd (shr (Build_shr_record m r s) e
                       (fexp prec emax (Zdigits2 m + e) - e)).
Proof.
  intros M T. rewrite fexp_eq.
  pose proof (Zdigits2_log2 m M) as D.
  pose proof (Z.log2_nonneg m) as L0.
  destruct (Z.max (Zdigits2 m + e - 53) (-1074) - e) as [| n | n] eqn:N;
    unfold shr; simpl fst; simpl snd; simpl shr_m.
  - repeat split; lia.
  - rewrite shr_m_iter by (simpl; lia). simpl shr_m.
    assert (Nle : Zpos n <= Z.log2 m) by lia.
    assert (Q : 0 < m / 2 ^ Zpos n).
    { apply Z.div_str_pos. split; [apply Z.pow_pos_nonneg; lia |].
      apply Z.le_trans with (2 ^ Z.log2 m).
      - apply Z.pow_le_mono_r; lia.
      - apply Z.log2_spec. exact M. }
    split; [exact Q |].
    rewrite (Zdigits2_log2 _ Q), <- Z.shiftr_div_pow2 by lia.
    rewrite Z.log2_shiftr by exact M. lia.
  - repeat split; lia.
Qed.

Lemma shr_record_of_loc_m m l :
  exists r s, shr_record_of_loc m l = Build_shr_record m r s.
Proof. destruct l as [| []]; simpl; eauto. Qed.

Lemma round_nearest_even_bounds m l :
  m <= round_nearest_even m l <= m + 1.
Proof.
  destruct l as [| []]; simpl; try lia. destruct (Z.even m); lia.
Qed.

Lemma binary_round_aux_reaches (s : bool) (m e : Z) (l : location) (k : Z) :
  0 < m -> -1074 < k -> k <= Zdigits2 m + e ->
  reaches k s (binary_round_aux prec emax s m e l).
Proof.
  intros M K T. unfold binary_round_aux, shr_fexp.
  destruct (shr_record_of_loc_m m l) as (r0 & s0 & ->).
  assert (T0 : -1074 < Zdigits2 m + e) by lia.
  destruct (shr_keeps_top m r0 s0 e M T0) as (A & B & C).
  destruct (shr (Build_shr_record m r0 s0) e
              (fexp prec emax (Zdigits2 m + e) - e)) as [mrs' e'].
  simpl fst in *. simpl snd in *.
  pose proof (round_nearest_even_bounds (shr_m mrs') (loc_of_shr_record mrs'))
    as R.
  set (m2 := round_nearest_even (shr_m mrs') (loc_of_shr_record mrs')) in *.
  assert (M2 : 0 < m2) by lia.
  assert (D : Zdigits2 (shr_m mrs') <= Zdigits2 m2).
  { rewrite (Zdigits2_log2 _ A), (Zdigits2_log2 _ M2).
    apply Z.add_le_mono_r. apply Z.log2_le_mono. lia. }
  simpl shr_record_of_loc.
  assert (T2 : -1074 < Zdigits2 m2 + e') by lia.
  destruct (shr_keeps_top m2 false false e' M2 T2) as (A2 & B2 & C2).
  destruct (shr (Build_shr_record m2 false false) e'
              (fexp prec emax (Zdigits2 m2 + e') - e')) as [mrs'' e''].
  simpl fst in *. simpl snd in *.
  destruct (shr_m mrs'') as [| q | q]; [lia | | lia].
  destruct (e'' <=? emax - prec); unfold reaches; [| reflexivity].
  simpl Zdigits2 in B2. split; [reflexivity |]. split; lia.
Qed.


Lemma reaches_weaken (k k' : Z) (s : bool) (f : spec_float) :
  k' <= k -> reaches k s f -> reaches k' s f.
Proof.
  destruct f as [z | z | | z m e]; simpl; try tauto.
  intros K (A & B & C). repeat split; try assumption. lia.
Qed.

Lemma shl_align_spec (m : positive) (e e' : Z) :
  e' <= e ->
  snd (shl_align m e e') = e'
  /\ Zpos (fst (shl_align m e e')) = Zpos m * 2 ^ (e - e').
Proof.
  intros L. unfold shl_align.
  destruct (e' - e) as [| d | d] eqn:D; cbn [fst snd].
  - assert (e = e') by lia. subst. rewrite Z.sub_diag, Z.pow_0_r. split; lia.
  - lia.
  - split; [reflexivity |].
    rewrite (Pos.iter_swap_gen _ _ Zpos xO (Z.mul 2)) by reflexivity.
    change (Pos.iter (Z.mul 2) (Zpos m) d) with (Z.shiftl (Zpos m) (Zpos d)).
    rewrite Z.shiftl_mul_pow2 by lia.
    replace (e - e') with (Zpos d) by lia. reflexivity.
Qed.

Lemma shl_align_any (m : positive) (e e' : Z) :
  Zdigits2 (Zpos (fst (shl_align m e e'))) + snd (shl_align m e e')
  = Zdigits2 (Zpos m) + e.
Proof.
  destruct (Z_le_gt_dec e' e) as [L | G].
  - destruct (shl_align_spec m e e' L) as [-> E].
    rewrite !Zdigits2_log2 by lia. rewrite E.
    rewrite <- Z.shiftl_mul_pow2, Z.log2_shiftl by lia. lia.
  - unfold shl_align. destruct (e' - e) eqn:D; try lia; reflexivity.
Qed.

Lemma binary_round_reaches (s : bool) (m : positive) (e k : Z) :
  -1074 < k -> k <= Zdigits2 (Zpos m) + e ->
  reaches k s (binary_round prec emax s m e).
Proof.
  intros K T. unfold binary_round.
  pose proof (shl_align_any m e
                (fexp prec emax (Zpos (digits2_pos m) + e))) as A.
  destruct (shl_align m e (fexp prec emax (Zpos (digits2_pos m) + e)))
    as [mz ez].
  simpl fst in A. simpl snd in A.
  apply binary_round_aux_reaches; lia.
Qed.

(** The sign of a rounded result is the sign asked for. *)
Lemma binary_round_aux_sign (s : bool) (m e : Z) (l : location) :
  match binary_round_aux prec emax s m e l with
  | S754_zero s' | S754_infinity s' | S754_finite s' _ _ => s' = s
  | S754_nan => True
  end.
Proof.
  unfold binary_round_aux.
  destruct (shr_fexp prec emax m e l) as [mrs' e'].
  destruct (shr_fexp prec emax _ e' loc_Exact) as [mrs'' e''].
  destruct (shr_m mrs''); try reflexivity.
  destruct (e'' <=? emax - prec); reflexivity.
Qed.

End Binary64Rounding.

(* ------------------------------------------------------------------ *)
(** ** Binary64 arithmetic: rounding within range does not overflow *)

Section Binary64Range.

Import Binary64.
Local Open Scope Z_scope.

Lemma shr_exponent (mrs : shr_record) (e t : Z) :
  snd (shr mrs e (fexp prec emax t - e)) = Z.max e (fexp prec emax t).
Proof.
  unfold shr. destruct (fexp prec emax t - e) eqn:N; cbn [snd]; lia.
Qed.

Lemma shr_zero (r s : bool) (e n : Z) :
  shr_m (fst (shr (Build_shr_record 0 r s) e n)) = 0.
Proof.
  unfold shr. destruct n; cbn [fst]; try reflexivity.
  rewrite shr_m_iter by (cbn; lia). reflexivity.
Qed.

(** The second half of [binary_round_aux] does not overflow on a
    mantissa and exponent that are in range. *)
Lemma finish_finite (s : bool) (m e : Z) :
  0 <= m -> e <= 971 -> -1074 <= e -> Zdigits2 m + e <= 1024 ->
  is_infinite
    (match shr_m (fst (shr_fexp prec emax m e loc_Exact)) with
     | Z0 => S754_zero s
     | Zpos q =>
         if snd (shr_fexp prec emax m e loc_Exact) <=? emax - prec
         then S754_finite s q (snd (shr_fexp prec emax m e loc_Exact))
         else S754_infinity s
     | Zneg _ => S754_nan
     end) = false.
Proof.
  intros M E1 E0 T. unfold shr_fexp. cbn [shr_record_of_loc].
  destruct (Z.eq_dec m 0) as [-> | Nz].
  - rewrite shr_zero. reflexivity.
  - rewrite shr_exponent.
    destruct (shr_m (fst (shr (Build_shr_record m false false) e
                              (fexp prec emax (Zdigits2 m + e) - e))));
      try reflexivity.
    rewrite fexp_eq.
    replace (Z.max e (Z.max (Zdigits2 m + e - 53) (-1074)) <=? emax - prec)
      with true; [reflexivity |].
    symmetry. apply Z.leb_le. change (emax - prec) with 971. lia.
Qed.

Lemma Zdigits2_nonneg (m : Z) : 0 <= Zdigits2 m.
Proof. destruct m; simpl; lia. Qed.

Lemma Zdigits2_shift (m n : Z) :
  0 <= m -> 0 <= n -> Zdigits2 (m / 2 ^ n) <= Z.max 0 (Zdigits2 m - n).
Proof.
  intros M N.
  assert (P2 : 0 < 2 ^ n) by (apply Z.pow_pos_nonneg; lia).
  assert (Q : 0 <= m / 2 ^ n) by (apply Z.div_pos; lia).
  destruct (Z.eq_dec (m / 2 ^ n) 0) as [-> | Nz]; [simpl; lia |].
  assert (Mp : 0 < m).
  { destruct (Z.eq_dec m 0) as [-> | ]; [| lia].
    rewrite Z.div_0_l in Nz by lia. lia. }
  rewrite (Zdigits2_log2 (m / 2 ^ n)), (Zdigits2_log2 m) by lia.
  rewrite <- Z.shiftr_div_pow2, Z.log2_shiftr by lia.
  destruct (Z_le_gt_dec n (Z.log2 m)) as [L | G]; [lia |].
  exfalso. apply Nz. apply Z.div_small. split; [lia |].
  apply Z.lt_le_trans with (2 ^ (Z.log2 m + 1)).
  - rewrite Z.add_1_r. apply Z.log2_spec. exact Mp.
  - apply Z.pow_le_mono_r; lia.
Qed.

Lemma shr_mantissa (m : Z) (r s : bool) (e n : Z) :
  0 <= m ->
  0 <= shr_m (fst (shr (Build_shr_record m r s) e n))
  /\ Zdigits2 (shr_m (fst (shr (Build_shr_record m r s) e n)))
     + snd (shr (Build_shr_record m r s) e n)
     <= Z.max (snd (shr (Build_shr_record m r s) e n)) (Zdigits2 m + e).
Proof.
  intros M. unfold shr. pose proof (Zdigits2_nonneg m).
  destruct n as [| p | p]; cbn [fst snd shr_m]; try (split; lia).
  rewrite shr_m_iter by (cbn; lia). cbn [shr_m].
  pose proof (Zdigits2_shift m (Zpos p) M ltac:(lia)).
  split; [apply Z.div_pos; [lia | apply Z.pow_pos_nonneg; lia] | lia].
Qed.

Lemma round_nearest_even_digits (m : Z) (l : location) :
  0 <= m -> Zdigits2 (round_nearest_even m l) <= Zdigits2 m + 1.
Proof.
  intros M. pose proof (round_nearest_even_bounds m l) as B.
  destruct (Z.eq_dec m 0) as [-> | Nz].
  - assert (C : round_nearest_even 0 l = 0 \/ round_nearest_even 0 l = 1)
      by lia.
    destruct C as [-> | ->]; simpl; lia.
  - rewrite (Zdigits2_log2 m), (Zdigits2_log2 (round_nearest_even m l)) by lia.
    assert (Z.log2 (round_nearest_even m l) <= Z.log2 (m + 1))
      by (apply Z.log2_le_mono; lia).
    pose proof (Z.log2_succ_le m). unfold Z.succ in *. lia.
Qed.

(** Rounding a mantissa and exponent that are in range does not overflow. *)
Lemma binary_round_aux_finite (s : bool) (m e : Z) (l : location) :
  0 <= m -> e <= 971 -> Zdigits2 m + e <= 1023 ->
  is_infinite (binary_round_aux prec emax s m e l) = false.
Proof.
  intros M E T. unfold binary_round_aux.
  destruct (shr_record_of_loc_m m l) as (r0 & s0 & R).
  pose proof (shr_exponent (Build_shr_record m r0 s0) e (Zdigits2 m + e)) as X.
  pose proof (shr_mantissa m r0 s0 e
                (fexp prec emax (Zdigits2 m + e) - e) M) as [A B].
  unfold shr_fexp at 1. rewrite R.
  destruct (shr (Build_shr_record m r0 s0) e
              (fexp prec emax (Zdigits2 m + e) - e)) as [mrs' e'].
  cbn [fst snd] in *. rewrite fexp_eq in X.
  pose proof (round_nearest_even_bounds (shr_m mrs') (loc_of_shr_record mrs'))
    as Rb.
  pose proof (round_nearest_even_digits (shr_m mrs') (loc_of_shr_record mrs') A)
    as Rd.
  set (m2 := round_nearest_even (shr_m mrs') (loc_of_shr_record mrs')) in *.
  pose proof (finish_finite s m2 e') as F.
  destruct (shr_fexp prec emax m2 e' loc_Exact) as [mrs'' e''].
  cbn [fst snd] in F. apply F; lia.
Qed.

Lemma Zdigits2_below (z n : Z) : 0 < z -> z < 2 ^ n -> Zdigits2 z <= n.
Proof.
  intros Z0 B. rewrite Zdigits2_log2 by exact Z0.
  assert (0 < n).
  { destruct (Z_lt_le_dec 0 n) as [| N]; [assumption |]. exfalso.
    destruct (Z.eq_dec n 0) as [-> | ]; [simpl in B; lia |].
    rewrite Z.pow_neg_r in B by lia. lia. }
  assert (Z.log2 z < n) by (apply Z.log2_lt_pow2; assumption). lia.
Qed.

Lemma shl_align_exponent (m : positive) (e e' : Z) :
  snd (shl_align m e e') <= e.
Proof.
  unfold shl_align. destruct (e' - e) eqn:D; cbn [snd]; lia.
Qed.

Lemma binary_round_finite (s : bool) (m : positive) (e : Z) :
  e <= 971 -> Zdigits2 (Zpos m) + e <= 1023 ->
  is_infinite (binary_round prec emax s m e) = false.
Proof.
  intros E T. unfold binary_round.
  pose proof (shl_align_any m e
                (fexp prec emax (Zpos (digits2_pos m) + e))) as A.
  pose proof (shl_align_exponent m e
                (fexp prec emax (Zpos (digits2_pos m) + e))) as B.
  destruct (shl_align m e (fexp prec emax (Zpos (digits2_pos m) + e)))
    as [mz ez].
  cbn [fst snd] in A, B.
  apply binary_round_aux_finite; lia.
Qed.

(** An integer below [2^1023] in absolute value converts to a float. *)
Lemma to_float_in_range (z : Z) :
  Z.abs z < 2 ^ 1023 -> is_ok (to_float z) = true.
Proof.
  intros B. unfold to_float.
  assert (F : is_infinite (binary_normalize prec emax z 0 false) = false).
  { destruct z as [| p | p]; [reflexivity | |];
      cbn [binary_normalize]; apply binary_round_finite; try lia;
      pose proof (Zdigits2_below (Zpos p) 1023 ltac:(lia) B); lia. }
  now rewrite F.
Qed.

(** The quotient of an integer below [2^1023] by an integer that is not
    zero is a float. *)
Lemma int_truediv_in_range (a b : Z) :
  Z.abs a < 2 ^ 1023 -> b <> 0 -> is_ok (int_truediv a b) = true.
Proof.
  intros A B. unfold int_truediv.
  destruct (Z.eqb_spec b 0) as [| _]; [contradiction |].
  assert (F : is_infinite (SFdiv prec emax (raw_of_Z a) (raw_of_Z b)) = false).
  { assert (G : forall (s : bool) (p q : positive),
                 Zpos p < 2 ^ 1023 ->
                 is_infinite
                   (SFdiv prec emax (S754_finite s p 0)
                      (S754_finite false q 0)) = false
                 /\ is_infinite
                      (SFdiv prec emax (S754_finite s p 0)
                         (S754_finite true q 0)) = false).
    { intros s p q Bp. cbn [SFdiv]. unfold SFdiv_core_binary.
      pose proof (Zdigits2_below (Zpos p) 1023 ltac:(lia) Bp) as Dp.
      set (e' := Z.min _ _).
      assert (E' : e' <= 0) by (unfold e'; lia).
      set (m' := match 0 - 0 - e' with
                 | 0 => Zpos p | Zpos _ => Z.shiftl (Zpos p) (0 - 0 - e')
                 | Zneg _ => 0 end).
      assert (M' : m' = Zpos p * 2 ^ (- e')).
      { unfold m'. destruct (0 - 0 - e') eqn:D; try lia.
        - replace (- e') with 0 by lia. simpl. lia.
        - rewrite Z.shiftl_mul_pow2 by lia. f_equal. f_equal. lia. }
      assert (P2 : 0 < 2 ^ (- e')) by (apply Z.pow_pos_nonneg; lia).
      assert (Mp : 0 < m') by (rewrite M'; lia).
      assert (Dm : Zdigits2 m' = Zdigits2 (Zpos p) - e').
      { rewrite (Zdigits2_log2 m' Mp), (Zdigits2_log2 (Zpos p)) by lia.
        rewrite M', <- Z.shiftl_mul_pow2, Z.log2_shiftl by lia. lia. }
      pose proof (Z_div_mod m' (Zpos q) ltac:(lia)) as DM.
      destruct (Z.div_eucl m' (Zpos q)) as [qt r].
      assert (Q : 0 <= qt <= m') by nia.
      assert (Dq : Zdigits2 qt <= Zdigits2 m').
      { destruct (Z.eq_dec qt 0) as [-> | ];
          [pose proof (Zdigits2_nonneg m'); simpl; lia |].
        rewrite (Zdigits2_log2 qt), (Zdigits2_log2 m') by lia.
        apply Z.add_le_mono_r. apply Z.log2_le_mono. lia. }
      split; apply binary_round_aux_finite; lia. }
    destruct a as [| p | p], b as [| q | q]; try reflexivity;
      try contradiction; cbn [raw_of_Z]; apply G; lia. }
  now rewrite F.
Qed.

End Binary64Range.

(* ------------------------------------------------------------------ *)
(** ** Binary64 arithmetic: signs of the operations *)

Section Binary64Signs.

Import Binary64.
Local Open Scope Z_scope.


Lemma reaches_nonneg (k : Z) (f : float) : reaches k false f -> float_nonneg f.
Proof.
  destruct f as [s | s | | s m e]; simpl; try tauto.
  - now intros ->.
  - now intros (-> & _).
Qed.

Lemma SFmul_nn (x y : float) : float_nonneg x -> float_nonneg y -> float_nonneg (SFmul prec emax x y).
Proof.
  destruct x as [sx | sx | | sx mx ex], y as [sy | sy | | sy my ey];
    simpl; try tauto;
    try (destruct sx, sy; simpl; tauto).
  intros X Y. destruct sx, sy; try tauto. simpl xorb.
  pose proof (binary_round_aux_sign false (Zpos (mx * my)) (ex + ey) loc_Exact)
    as S.
  destruct (binary_round_aux prec emax false (Zpos (mx * my)) (ex + ey) loc_Exact);
    simpl; try tauto; now subst.
Qed.

Lemma SFdiv_nn (x y : float) :
  float_nonneg x -> float_nonneg y -> is_zero y = false -> float_nonneg (SFdiv prec emax x y).
Proof.
  destruct x as [sx | sx | | sx mx ex], y as [sy | sy | | sy my ey];
    simpl; try tauto; try discriminate;
    try (destruct sx, sy; simpl; tauto).
  intros X Y _. destruct sx, sy; try tauto. simpl xorb.
  destruct (SFdiv_core_binary prec emax (Zpos mx) ex (Zpos my) ey)
    as [[mz ez] lz].
  pose proof (binary_round_aux_sign false mz ez lz) as S.
  destruct (binary_round_aux prec emax false mz ez lz);
    simpl; try tauto; now subst.
Qed.

Lemma SFadd_reaches (k : Z) (x y : float) :
  -1074 < k -> reaches k false x -> float_nonneg y ->
  reaches k false (SFadd prec emax x y).
Proof.
  intros K.
  destruct x as [sx | sx | | sx mx ex], y as [sy | sy | | sy my ey];
    cbn [reaches float_nonneg SFadd]; try tauto;
    try (destruct sx, sy; cbn [reaches]; tauto).
  intros (-> & E & D) Y. destruct sy; [tauto |]. cbn [cond_Zopp].
  destruct (shl_align_spec mx ex (Z.min ex ey)) as [Sx _]; [lia |].
  pose proof (shl_align_any mx ex (Z.min ex ey)) as B.
  rewrite Sx in B. clear Sx.
  destruct (shl_align mx ex (Z.min ex ey)) as [a ea].
  destruct (shl_align my ey (Z.min ex ey)) as [b eb].
  cbn [fst snd] in *.
  change (Zpos a + Zpos b) with (Zpos (a + b)).
  unfold binary_normalize. apply binary_round_reaches; [exact K |].
  assert (Zdigits2 (Zpos a) <= Zdigits2 (Zpos (a + b))).
  { rewrite (Zdigits2_log2 (Zpos a)), (Zdigits2_log2 (Zpos (a + b))) by lia.
    apply Z.add_le_mono_r. apply Z.log2_le_mono. lia. }
  change (Zdigits2 (Zpos mx)) with (Zpos (digits2_pos mx)) in B. lia.
Qed.

Lemma SFmul_reaches (x y : float) :
  reaches (-1073) false x -> reaches 1 false y ->
  reaches (-1073) false (SFmul prec emax x y).
Proof.
  destruct x as [sx | sx | | sx mx ex], y as [sy | sy | | sy my ey];
    cbn [reaches SFmul]; try tauto;
    try (intros; subst; reflexivity);
    try (intros (-> & _) ->; reflexivity);
    try (intros -> (-> & _); reflexivity).
  intros (-> & Ex & Dx) (-> & Ey & Dy). cbn [xorb].
  apply binary_round_aux_reaches; [lia | lia |].
  rewrite Zdigits2_log2 by lia. rewrite Pos2Z.inj_mul.
  pose proof (Z.log2_mul_below (Zpos mx) (Zpos my)) as L.
  pose proof (digits2_log2 mx). pose proof (digits2_log2 my). lia.
Qed.

Lemma to_float_nn (z : Z) : 0 <= z -> safe float_nonneg (to_float z).
Proof.
  intros Z. unfold to_float.
  destruct (is_infinite (binary_normalize prec emax z 0 false)); simpl;
    [trivial |].
  destruct z as [| p | p]; [exact I | | lia].
  apply (reaches_nonneg 1). apply binary_round_reaches; [lia |].
  pose proof (digits2_log2 p). pose proof (Z.log2_nonneg (Zpos p)).
  simpl Zdigits2. lia.
Qed.

Lemma to_float_positive (z : Z) : 1 <= z -> safe (reaches 1 false) (to_float z).
Proof.
  intros Z. unfold to_float.
  destruct (is_infinite (binary_normalize prec emax z 0 false)); simpl;
    [trivial |].
  destruct z as [| p | p]; [lia | | lia].
  apply binary_round_reaches; [lia |].
  pose proof (digits2_log2 p). pose proof (Z.log2_nonneg (Zpos p)).
  simpl Zdigits2. lia.
Qed.



Lemma safe_bind {A B : Type} (C : A -> Prop) (D : B -> Prop)
    (c : result A) (k : A -> result B) :
  safe C c -> (forall v, C v -> safe D (k v)) -> safe D (bind c k).
Proof.
  destruct c as [v | []]; simpl; intros S K; [now apply K | tauto | exact I].
Qed.

Lemma safe_weaken {A : Type} (C D : A -> Prop) (c : result A) :
  (forall v, C v -> D v) -> safe C c -> safe D c.
Proof. destruct c as [v | []]; simpl; auto. Qed.

Lemma positive_from_nonneg (k : Z) (x : pynum) : positive_from k x -> nonneg x.
Proof.
  destruct x as [z | f]; simpl; [lia | apply reaches_nonneg].
Qed.

Lemma positive_from_weaken (k k' : Z) (x : pynum) :
  k' <= k -> positive_from k x -> positive_from k' x.
Proof.
  destruct x as [z | f]; simpl; [tauto | apply reaches_weaken].
Qed.

Lemma as_float_any (x : pynum) : safe (fun _ => True) (as_float x).
Proof.
  destruct x as [z | f]; simpl; [| exact I]. unfold to_float.
  now destruct (is_infinite _).
Qed.

Lemma as_float_nn (x : pynum) : nonneg x -> safe float_nonneg (as_float x).
Proof. destruct x as [z | f]; simpl; [apply to_float_nn | tauto]. Qed.

Lemma as_float_positive (k : Z) (x : pynum) :
  k <= 1 -> positive_from k x -> safe (reaches k false) (as_float x).
Proof.
  intros K. destruct x as [z | f]; simpl; [| tauto]. intros Z.
  apply (safe_weaken (reaches 1 false)); [| now apply to_float_positive].
  intros v. now apply reaches_weaken.
Qed.

Lemma float_op_any (op : float -> float -> float) (x y : pynum) :
  safe (fun _ => True) (float_op op x y).
Proof.
  unfold float_op.
  apply (safe_bind (fun _ => True)); [apply as_float_any |]. intros a _.
  apply (safe_bind (fun _ => True)); [apply as_float_any |]. intros b _.
  exact I.
Qed.

Lemma py_add_any (x y : pynum) : safe (fun _ => True) (py_add x y).
Proof. destruct x, y; simpl py_add; try exact I; apply float_op_any. Qed.

Lemma py_sub_any (x y : pynum) : safe (fun _ => True) (py_sub x y).
Proof. destruct x, y; simpl py_sub; try exact I; apply float_op_any. Qed.

Lemma py_mul_any (x y : pynum) : safe (fun _ => True) (py_mul x y).
Proof. destruct x, y; simpl py_mul; try exact I; apply float_op_any. Qed.

Lemma float_op_class (op : float -> float -> float)
    (C D E : float -> Prop) (x y : pynum) :
  (forall a b, C a -> D b -> E (op a b)) ->
  safe C (as_float x) -> safe D (as_float y) ->
  safe (fun v => match v with PFloat f => E f | PInt _ => False end)
       (float_op op x y).
Proof.
  intros Op X Y. unfold float_op.
  apply (safe_bind C); [exact X |]. intros a Ca.
  apply (safe_bind D); [exact Y |]. intros b Db.
  simpl. now apply Op.
Qed.

Lemma py_mul_nn (x y : pynum) : nonneg x -> nonneg y -> safe nonneg (py_mul x y).
Proof.
  intros X Y.
  assert (F : safe nonneg (float_op (SFmul prec emax) x y)).
  { apply (safe_weaken
             (fun v => match v with PFloat f => float_nonneg f | PInt _ => False end)).
    - intros [z | f]; simpl; tauto.
    - apply (float_op_class _ float_nonneg float_nonneg float_nonneg);
        [apply SFmul_nn | now apply as_float_nn | now apply as_float_nn]. }
  destruct x as [a | a], y as [b | b]; try exact F.
  simpl in *. lia.
Qed.

Lemma py_mul_positive (x y : pynum) :
  positive_from (-1073) x -> positive_from 1 y -> safe (positive_from (-1073)) (py_mul x y).
Proof.
  intros X Y.
  assert (F : safe (positive_from (-1073)) (float_op (SFmul prec emax) x y)).
  { apply (safe_weaken
             (fun v => match v with
                       | PFloat f => reaches (-1073) false f
                       | PInt _ => False
                       end)).
    - intros [z | f]; simpl; tauto.
    - apply (float_op_class _ (reaches (-1073) false) (reaches 1 false)
               (reaches (-1073) false));
        [apply SFmul_reaches | apply as_float_positive; [lia | exact X]
         | apply as_float_positive; [lia | exact Y]]. }
  destruct x as [a | a], y as [b | b]; try exact F.
  simpl in *. lia.
Qed.

Lemma py_add_positive (k : Z) (x y : pynum) :
  -1074 < k -> k <= 1 -> positive_from k x -> nonneg y -> safe (positive_from k) (py_add x y).
Proof.
  intros K1 K2 X Y.
  assert (F : safe (positive_from k) (float_op (SFadd prec emax) x y)).
  { apply (safe_weaken
             (fun v => match v with
                       | PFloat f => reaches k false f
                       | PInt _ => False
                       end)).
    - intros [z | f]; simpl; tauto.
    - apply (float_op_class _ (reaches k false) float_nonneg (reaches k false));
        [intros a b; now apply SFadd_reaches
         | apply as_float_positive; [lia | exact X]
         | now apply as_float_nn]. }
  destruct x as [a | a], y as [b | b]; try exact F.
  simpl in *. lia.
Qed.

Lemma reaches_not_zero (k : Z) (f : float) : reaches k false f -> is_zero f = false.
Proof. destruct f; simpl; tauto. Qed.

Lemma raw_of_Z_nn (z : Z) : 0 <= z -> float_nonneg (raw_of_Z z).
Proof. destruct z; simpl; [tauto | tauto | lia]. Qed.

Lemma py_truediv_nn (k : Z) (x y : pynum) :
  k <= 1 -> nonneg x -> positive_from k y -> safe nonneg (py_truediv x y).
Proof.
  intros K X Y.
  assert (F : safe nonneg (a <- as_float x ;; b <- as_float y ;;
                       if is_zero b then Raise ZeroDivisionError
                       else Ok (PFloat (SFdiv prec emax a b)))%py).
  { apply (safe_bind float_nonneg); [now apply as_float_nn |]. intros a Fa.
    apply (safe_bind (reaches k false)); [now apply as_float_positive |].
    intros b Fb. rewrite (reaches_not_zero _ _ Fb). simpl.
    apply SFdiv_nn; [exact Fa | exact (reaches_nonneg _ _ Fb)
                     | exact (reaches_not_zero _ _ Fb)]. }
  destruct x as [a | a], y as [b | b]; try exact F.
  simpl in X, Y. simpl py_truediv. unfold int_truediv.
  destruct (Z.eqb_spec b 0) as [-> | Nz]; [lia |].
  destruct (is_infinite (SFdiv prec emax (raw_of_Z a) (raw_of_Z b))) eqn:Inf;
    [exact I |].
  simpl. apply SFdiv_nn; [now apply raw_of_Z_nn | apply raw_of_Z_nn; lia |].
  destruct b; simpl; [lia | reflexivity | reflexivity].
Qed.

End Binary64Signs.

(* ------------------------------------------------------------------ *)
(** ** Binary64 arithmetic: comparisons with zero *)

Section Binary64Comparisons.

Import Binary64.
Local Open Scope Z_scope.


Lemma cmp_float_Z_gt (f : float) :
  cmp_float_Z f 0 = Some Gt ->
  match f with
  | S754_finite false _ _ | S754_infinity false => True
  | _ => False
  end.
Proof.
  destruct f as [s | s | | s m e]; cbn [cmp_float_Z]; try discriminate.
  - destruct s; [discriminate | trivial].
  - destruct s; [| trivial]. intros E. exfalso.
    destruct (0 <=? e) eqn:L; injection E as E.
    + apply Z.leb_le in L. apply Z.compare_gt_iff in E.
      assert (P2 : 0 < 2 ^ e) by (apply Z.pow_pos_nonneg; lia).
      assert (N : Z.neg m * 2 ^ e < 0) by (apply Z.mul_neg_pos; lia).
      exact (Z.lt_asymm _ _ E N).
    + discriminate E.
Qed.


Lemma lt_zero_nn (x : pynum) : py_lt (PInt 0) x = true -> nonneg x.
Proof.
  unfold py_lt. destruct x as [z | f]; cbn [py_compare nonneg]; intros E.
  - destruct (0 ?= z) eqn:C; try discriminate E.
    change (0 < z) in C. lia.
  - destruct (cmp_float_Z f 0) as [[] |] eqn:C; cbn [option_map CompOpp] in E;
      try discriminate E.
    apply cmp_float_Z_gt in C.
    destruct f as [s | [] | | [] m e]; cbn [float_nonneg]; tauto.
Qed.

Lemma eq_zero_nn (x : pynum) : py_eq (PInt 0) x = true -> nonneg x.
Proof.
  unfold py_eq. destruct x as [z | f]; cbn [py_compare nonneg]; intros E.
  - destruct (0 ?= z) eqn:C; try discriminate E.
    apply Z.compare_eq_iff in C. clear E. lia.
  - destruct f as [s | [] | | [] m e]; cbn [float_nonneg]; try tauto;
      cbn [cmp_float_Z option_map CompOpp] in E; try discriminate E.
    exfalso. destruct (0 <=? e) eqn:L.
    + destruct (Z.neg m * 2 ^ e ?= 0) eqn:C; cbn [CompOpp] in E;
        try discriminate E.
      apply Z.compare_eq_iff in C. apply Z.leb_le in L.
      assert (P2 : 0 < 2 ^ e) by (apply Z.pow_pos_nonneg; lia).
      assert (N : Z.neg m * 2 ^ e < 0) by (apply Z.mul_neg_pos; lia).
      rewrite C in N. discriminate N.
    + rewrite Z.mul_0_l in E. discriminate E.
Qed.

Lemma leq_zero_nn (x : pynum) : leq (int_lit 0) x = true -> nonneg x.
Proof.
  unfold leq. intros L. apply orb_true_iff in L.
  destruct L as [L | L]; [now apply lt_zero_nn | now apply eq_zero_nn].
Qed.

Lemma lt_zero_positive (x : pynum) :
  py_lt (PInt 0) x = true -> well_formed x -> positive_from (-1073) x.
Proof.
  unfold py_lt. destruct x as [z | f]; cbn [py_compare positive_from well_formed];
    intros E V.
  - destruct (0 ?= z) eqn:C; try discriminate E.
    change (0 < z) in C. lia.
  - destruct (cmp_float_Z f 0) as [[] |] eqn:C; cbn [option_map CompOpp] in E;
      try discriminate E.
    apply cmp_float_Z_gt in C.
    destruct f as [s | [] | | [] m e]; cbn [reaches]; try tauto.
    split; [reflexivity |].
    cbn [valid_binary] in V.
    unfold bounded, canonical_mantissa in V. apply andb_true_iff in V.
    destruct V as [V _]. apply Z.eqb_eq in V.
    change (fexp prec emax (Zpos (digits2_pos m) + e))
      with (Z.max (Zpos (digits2_pos m) + e - 53) (-1074)) in V. lia.
Qed.



Lemma safe_bind_assoc {A B D : Type} (C : B -> Prop) (E : D -> Prop)
    (c : result A) (f : A -> result B) (k : B -> result D) :
  safe C (bind c f) -> (forall v, C v -> safe E (k v)) ->
  safe E (bind c (fun x => bind (f x) k)).
Proof.
  destruct c as [a | []]; simpl; intros S K; [| tauto | exact I].
  now apply (safe_bind C).
Qed.

Lemma growth_check_sound (z : Z) :
  growth_check z = true ->
  safe nonneg (rate <- py_truediv (PInt z) (PInt 100) ;; py_add (PInt 1) rate)%py.
Proof.
  unfold growth_check.
  destruct (rate <- py_truediv (PInt z) (PInt 100) ;; py_add (PInt 1) rate)%py
    as [[v | [s | [] | | [] m e]] | []];
    cbn [safe nonneg float_nonneg]; try tauto; try discriminate.
  intros L. apply Z.leb_le in L. exact L.
Qed.

Lemma growth_factor_of_nn (g : pynum) :
  nonneg g -> safe nonneg (rate <- py_truediv g (PInt 100) ;; py_add (PInt 1) rate)%py.
Proof.
  intros G. apply (safe_bind nonneg).
  - apply (py_truediv_nn 1); [lia | exact G | simpl; lia].
  - intros rate R. apply (safe_weaken (positive_from 1)); [apply positive_from_nonneg |].
    apply py_add_positive; [lia | lia | simpl; lia | exact R].
Qed.

Lemma growth_factor_of_int (z : Z) :
  -100 <= z ->
  safe nonneg (rate <- py_truediv (PInt z) (PInt 100) ;; py_add (PInt 1) rate)%py.
Proof.
  intros L. destruct (Z_le_gt_dec 0 z) as [N | N].
  - now apply growth_factor_of_nn.
  - apply growth_check_sound.
    assert (A : forallb (fun k => growth_check (Z.of_nat k - 100)) (seq 0 100)
                = true) by (vm_compute; reflexivity).
    rewrite forallb_forall in A.
    replace z with (Z.of_nat (Z.to_nat (z + 100)) - 100) by lia.
    apply A. apply in_seq. lia.
Qed.

End Binary64Comparisons.

(* ------------------------------------------------------------------ *)
(** ** Binary64 arithmetic: the run never divides by zero *)

Section Binary64Constants.

Import Binary64.
Local Open Scope Z_scope.


Lemma hundredth_nonneg : nonneg (dec_lit 1 2).
Proof. vm_compute. exact I. Qed.

End Binary64Constants.

Section Binary64Iteration.

Import Binary64.
Local Open Scope Z_scope.

Variable P : Params pynum.
Variable fee_rate : pynum.

Hypothesis fee_nonneg64 : nonneg fee_rate.
Hypothesis burn_nonneg64 : nonneg (burn_pct P).
Hypothesis depth_positive64 : positive_from (-1073) (liquidity_depth P).
Hypothesis growth_factor_nn :
  safe nonneg (rate <- truediv (monthly_growth P) (int_lit 100) ;;
           add (int_lit 1) rate)%py.

Lemma burn_of_safe (bought : pynum) :
  nonneg bought -> safe nonneg (burn_of P bought).
Proof.
  intros B. unfold burn_of.
  apply (safe_bind nonneg).
  - apply (py_truediv_nn 1); [lia | exact burn_nonneg64 | simpl; lia].
  - intros pct Pc. now apply py_mul_nn.
Qed.

Lemma circuit_breaker_safe (supply burned : pynum) :
  nonneg supply -> nonneg burned -> safe nonneg (circuit_breaker supply burned).
Proof.
  intros S B. unfold circuit_breaker.
  destruct (lt supply CRITICAL_SUPPLY_THRESHOLD); [| exact B].
  apply (safe_bind nonneg).
  - apply (py_truediv_nn 1); [lia | exact S | simpl; lia].
  - intros sf Sf. apply (safe_bind nonneg); [now apply py_mul_nn |].
    intros t T. apply py_mul_nn; [exact T | exact hundredth_nonneg].
Qed.

Lemma py_max_nn (x : pynum) : nonneg (py_max (int_lit 0) x).
Proof.
  unfold py_max. destruct (lt (int_lit 0) x) eqn:L.
  - now apply lt_zero_nn.
  - simpl. lia.
Qed.

Lemma iteration_safe (s : LoopState pynum) :
  sound64 s ->
  safe (fun l => sound64 (next_state l) /\ positive_from (-1073) (l_dynamic_depth l))
       (iteration P fee_rate s).
Proof.
  intros (Pr & Su & Au). unfold iteration.
  apply (safe_bind (fun _ => True)); [apply py_add_any |]. intros total _.
  apply (safe_bind nonneg); [now apply py_mul_nn |]. intros rev Rv.
  apply (safe_bind nonneg); [now apply (py_truediv_nn (-1073)) |].
  intros bought Bo.
  apply (safe_bind nonneg); [now apply burn_of_safe |]. intros unthr Un.
  apply (safe_bind nonneg); [now apply circuit_breaker_safe |]. intros burned Bu.
  apply (safe_bind nonneg);
    [apply py_mul_nn; [exact Su | exact (positive_from_nonneg _ _ Pr)] |].
  intros mcap Mc.
  apply (safe_bind nonneg); [apply py_mul_nn; [exact Mc | exact hundredth_nonneg] |].
  intros share Sh.
  apply (safe_bind (positive_from (-1073)));
    [apply py_add_positive; [lia | lia | exact depth_positive64 | exact Sh] |].
  intros depth De.
  apply (safe_bind nonneg); [now apply (py_truediv_nn (-1073)) |].
  intros move Mo.
  apply (safe_bind (positive_from 1));
    [apply py_add_positive; [lia | lia | simpl; lia | exact Mo] |].
  intros factor Fa.
  apply (safe_bind (positive_from (-1073))); [now apply py_mul_positive |].
  intros price Pn.
  apply (safe_bind (fun _ => True)); [apply py_sub_any |]. intros reduced _.
  apply (safe_bind_assoc nonneg); [exact growth_factor_nn |].
  intros growth Gr.
  apply (safe_bind nonneg); [now apply py_mul_nn |].
  intros new_aum Na.
  apply (safe_bind (fun _ => True)); [apply py_mul_any |]. intros pv _.
  apply (safe_bind (fun _ => True)); [apply py_mul_any |]. intros ttv _.
  unfold sound64, next_state. simpl.
  repeat split; try assumption. apply py_max_nn.
Qed.

Lemma loop_safe (n : nat) :
  forall i s data,
    sound64 s -> Forall row_sound64 data ->
    safe (Forall row_sound64) (loop P fee_rate n i s data).
Proof.
  induction n as [| n IH]; intros i s data K D; simpl.
  - exact D.
  - apply (safe_bind
             (fun l => sound64 (next_state l)
                       /\ positive_from (-1073) (l_dynamic_depth l)));
      [now apply iteration_safe |].
    intros l [Kl Dl]. apply IH; [exact Kl |].
    apply Forall_app. split; [exact D |].
    constructor; [| constructor].
    destruct Kl as (A & B & _). unfold row_sound64. simpl.
    repeat split; assumption.
Qed.

End Binary64Iteration.

Section Binary64Run.

Import Binary64.
Local Open Scope Z_scope.

Lemma growth_bounded_factor (g : pynum) :
  growth_bounded g ->
  safe nonneg (rate <- truediv g (int_lit 100) ;; add (int_lit 1) rate)%py.
Proof.
  intros [G | (z & -> & Z)].
  - apply growth_factor_of_nn. now apply leq_zero_nn.
  - now apply growth_factor_of_int.
Qed.

Lemma simulate_safe (months : nat) (P : Params pynum) :
  well_formed (initial_price P) ->
  well_formed (liquidity_depth P) ->
  valid P = true ->
  growth_bounded (monthly_growth P) ->
  safe (Forall row_sound64) (simulate months P).
Proof.
  intros Wp Wd V G. unfold valid in V.
  repeat (apply andb_true_iff in V; destruct V as [V ?]).
  unfold simulate.
  apply (safe_bind nonneg).
  - apply (py_truediv_nn 1); [lia | now apply leq_zero_nn | simpl; lia].
  - intros fr Fr. apply (safe_bind sound64).
    + unfold initial_state. apply (safe_bind nonneg).
      * apply py_mul_nn; [now apply leq_zero_nn | simpl; lia].
      * intros seed Se. unfold sound64. simpl.
        repeat split; [now apply lt_zero_positive | now apply lt_zero_nn
                       | exact Se].
    + intros s0 K. apply loop_safe; try assumption.
      * now apply leq_zero_nn.
      * now apply lt_zero_positive.
      * now apply growth_bounded_factor.
      * constructor.
Qed.


End Binary64Run.

(* ------------------------------------------------------------------ *)
(** ** Binary64 arithmetic: the run does not overflow *)

Section Binary64Totality.

Import Binary64.
Local Open Scope Z_scope.

Lemma no_overflow_bind {A B : Type} (C : A -> Prop) (D : B -> Prop)
    (c : result A) (k : A -> result B) :
  no_overflow C c -> (forall v, C v -> no_overflow D (k v)) ->
  no_overflow D (bind c k).
Proof.
  destruct c as [v | []]; simpl; intros S K; [now apply K | exact I | tauto].
Qed.

Lemma no_overflow_weaken {A : Type} (C D : A -> Prop) (c : result A) :
  (forall v, C v -> D v) -> no_overflow C c -> no_overflow D c.
Proof. destruct c as [v | []]; simpl; auto. Qed.

Lemma safe_no_overflow {A : Type} (C D : A -> Prop) (c : result A) :
  safe C c -> no_overflow D c -> exists v, c = Ok v /\ C v /\ D v.
Proof.
  destruct c as [v | []]; simpl; intros S N; try tauto. now exists v.
Qed.

Lemma is_float_converts (x : pynum) : is_float x -> converts x.
Proof. destruct x; simpl; [tauto | reflexivity]. Qed.

Lemma as_float_converts (x : pynum) :
  converts x -> exists f, as_float x = Ok f.
Proof.
  unfold converts. destruct (as_float x) as [f | e]; [eauto | discriminate].
Qed.

Lemma float_op_no_overflow (op : float -> float -> float) (x y : pynum) :
  converts x -> converts y -> no_overflow is_float (float_op op x y).
Proof.
  intros X Y. unfold float_op.
  destruct (as_float_converts x X) as (a & ->).
  destruct (as_float_converts y Y) as (b & ->). exact I.
Qed.

Lemma py_add_no_overflow (x y : pynum) :
  converts x -> converts y -> is_float x \/ is_float y ->
  no_overflow is_float (py_add x y).
Proof.
  intros X Y F. destruct x as [a | a], y as [b | b];
    try (now apply float_op_no_overflow). simpl in F. tauto.
Qed.

Lemma py_sub_no_overflow (x y : pynum) :
  converts x -> converts y -> is_float x \/ is_float y ->
  no_overflow is_float (py_sub x y).
Proof.
  intros X Y F. destruct x as [a | a], y as [b | b];
    try (now apply float_op_no_overflow). simpl in F. tauto.
Qed.

Lemma py_mul_no_overflow (x y : pynum) :
  converts x -> converts y -> is_float x \/ is_float y ->
  no_overflow is_float (py_mul x y).
Proof.
  intros X Y F. destruct x as [a | a], y as [b | b];
    try (now apply float_op_no_overflow). simpl in F. tauto.
Qed.

Lemma py_truediv_float (x y v : pynum) : py_truediv x y = Ok v -> is_float v.
Proof.
  assert (M : forall c : result float,
             (a <- c ;; b <- as_float y ;;
              if is_zero b then Raise ZeroDivisionError
              else Ok (PFloat (SFdiv prec emax a b))) = Ok v -> is_float v).
  { intros [a | e]; simpl; [| discriminate].
    destruct (as_float y) as [b | e]; simpl; [| discriminate].
    destruct (is_zero b); [discriminate |]. now intros [= <-]. }
  destruct x as [a | a], y as [b | b]; try apply M.
  simpl. unfold int_truediv. destruct (b =? 0); [discriminate |].
  destruct (is_infinite _); [discriminate |]. now intros [= <-].
Qed.

Lemma py_truediv_ok (x y : pynum) :
  is_ok (py_truediv x y) = true -> no_overflow is_float (py_truediv x y).
Proof.
  destruct (py_truediv x y) as [v | e] eqn:E; [| discriminate].
  intros _. simpl. exact (py_truediv_float _ _ _ E).
Qed.

Lemma py_truediv_no_overflow (x y : pynum) :
  converts x -> converts y -> is_float x \/ is_float y ->
  no_overflow is_float (py_truediv x y).
Proof.
  intros X Y F.
  assert (M : no_overflow is_float
                (a <- as_float x ;; b <- as_float y ;;
                 if is_zero b then Raise ZeroDivisionError
                 else Ok (PFloat (SFdiv prec emax a b)))).
  { destruct (as_float_converts x X) as (a & ->).
    destruct (as_float_converts y Y) as (b & ->). simpl.
    destruct (is_zero b); exact I. }
  destruct x as [a | a], y as [b | b]; try exact M. simpl in F. tauto.
Qed.

Lemma threshold_division_ok (f : float) :
  is_ok (py_truediv (PFloat f) (PInt 1000000)) = true.
Proof. reflexivity. Qed.

Lemma hundredth_float : is_float (dec_lit 1 2).
Proof. exact I. Qed.

Section Binary64NoOverflow.

Variable P : Params pynum.
Variable fee_rate : pynum.

Hypothesis fee_float : is_float fee_rate.
Hypothesis burn_ok : is_ok (truediv (burn_pct P) (int_lit 100)) = true.
Hypothesis growth_ok : is_ok (truediv (monthly_growth P) (int_lit 100)) = true.
Hypothesis depth_converts : converts (liquidity_depth P).
Hypothesis tokens_convert : converts (user_tokens P).

Lemma iteration_no_overflow (s : LoopState pynum) :
  typed s ->
  no_overflow (fun l => typed (next_state l)) (iteration P fee_rate s).
Proof.
  intros (Pf & Sc & St & Nc & Tc & NT). unfold iteration.
  apply (no_overflow_bind converts).
  { destruct NT as [Nf | T0].
    - apply (no_overflow_weaken is_float); [apply is_float_converts |].
      apply py_add_no_overflow; tauto.
    - rewrite T0. destruct (monthly_new_aum s) as [z | f] eqn:N.
      + exact Nc.
      + apply (no_overflow_weaken is_float); [apply is_float_converts |].
        apply py_add_no_overflow; [reflexivity | exact Nc | now right]. }
  intros total Tot.
  apply (no_overflow_bind is_float);
    [apply py_mul_no_overflow;
       [exact Nc | now apply is_float_converts | now right] |].
  intros rev Rv.
  apply (no_overflow_bind is_float);
    [apply py_truediv_no_overflow;
       [now apply is_float_converts | now apply is_float_converts
        | now left] |].
  intros bought Bo.
  apply (no_overflow_bind is_float).
  { unfold burn_of. apply (no_overflow_bind is_float).
    - now apply py_truediv_ok.
    - intros pct Pc. apply py_mul_no_overflow;
        [now apply is_float_converts | now apply is_float_converts
         | now left]. }
  intros unthr Un.
  apply (no_overflow_bind is_float).
  { unfold circuit_breaker.
    destruct (lt (current_supply s) CRITICAL_SUPPLY_THRESHOLD); [| exact Un].
    apply (no_overflow_bind is_float); [now apply py_truediv_ok |].
    intros sf Sf. apply (no_overflow_bind is_float).
    - apply py_mul_no_overflow;
        [now apply is_float_converts | now apply is_float_converts
         | now left].
    - intros t T. apply py_mul_no_overflow;
        [now apply is_float_converts | reflexivity | now left]. }
  intros burned Bu.
  apply (no_overflow_bind is_float);
    [apply py_mul_no_overflow;
       [exact Sc | now apply is_float_converts | now right] |].
  intros mcap Mc.
  apply (no_overflow_bind is_float);
    [apply py_mul_no_overflow;
       [now apply is_float_converts | reflexivity | now left] |].
  intros share Sh.
  apply (no_overflow_bind is_float);
    [apply py_add_no_overflow;
       [exact depth_converts | now apply is_float_converts | now right] |].
  intros depth De.
  apply (no_overflow_bind is_float);
    [apply py_truediv_no_overflow;
       [now apply is_float_converts | now apply is_float_converts
        | now left] |].
  intros move Mo.
  apply (no_overflow_bind is_float);
    [apply py_add_no_overflow;
       [reflexivity | now apply is_float_converts | now right] |].
  intros factor Fa.
  apply (no_overflow_bind is_float);
    [apply py_mul_no_overflow;
       [now apply is_float_converts | now apply is_float_converts
        | now left] |].
  intros price Pn.
  apply (no_overflow_bind is_float);
    [apply py_sub_no_overflow;
       [exact Sc | now apply is_float_converts | now right] |].
  intros reduced Re.
  apply (no_overflow_bind is_float); [now apply py_truediv_ok |].
  intros rate Ra.
  apply (no_overflow_bind is_float);
    [apply py_add_no_overflow;
       [reflexivity | now apply is_float_converts | now right] |].
  intros growth Gr.
  apply (no_overflow_bind is_float);
    [apply py_mul_no_overflow;
       [exact Nc | now apply is_float_converts | now right] |].
  intros new_aum Na.
  apply (no_overflow_bind is_float);
    [apply py_mul_no_overflow;
       [exact tokens_convert | now apply is_float_converts | now right] |].
  intros pv _.
  assert (Sn : converts (py_max (int_lit 0) reduced)
               /\ is_ok (py_truediv (py_max (int_lit 0) reduced)
                                    (PInt 1000000)) = true).
  { unfold py_max. destruct (lt (int_lit 0) reduced).
    - split; [now apply is_float_converts |].
      destruct reduced as [z | f]; [contradiction | reflexivity].
    - split; reflexivity. }
  apply (no_overflow_bind is_float);
    [apply py_mul_no_overflow;
       [exact (proj1 Sn) | now apply is_float_converts | now right] |].
  intros ttv _.
  unfold typed, next_state. simpl.
  repeat split; try tauto; try (now apply is_float_converts).
Qed.

Lemma loop_no_overflow (n : nat) :
  forall i s data,
    typed s -> no_overflow (fun _ => True) (loop P fee_rate n i s data).
Proof.
  induction n as [| n IH]; intros i s data T; simpl.
  - exact I.
  - apply (no_overflow_bind (fun l => typed (next_state l)));
      [now apply iteration_no_overflow |].
    intros l Tl. now apply IH.
Qed.

End Binary64NoOverflow.

Lemma simulate_no_overflow (months : nat) (P : Params pynum) :
  convertible P -> no_overflow (fun _ => True) (simulate months P).
Proof.
  intros (Pf & Sc & St & Lc & Uc & Fo & Bo & Go & seed & Se & Sv).
  unfold simulate.
  apply (no_overflow_bind is_float); [now apply py_truediv_ok |].
  intros fr Fr. unfold initial_state. rewrite Se. cbn [bind].
  apply loop_no_overflow; try assumption.
  unfold typed. cbn [current_price current_supply monthly_new_aum total_aum].
  repeat split; try assumption. now right.
Qed.

Lemma binary64_run_returns (months : nat) (P : Params pynum) :
  well_formed (initial_price P) ->
  well_formed (liquidity_depth P) ->
  valid P = true ->
  growth_bounded (monthly_growth P) ->
  convertible P ->
  exists rows, simulate months P = Ok rows /\ Forall row_sound64 rows.
Proof.
  intros Wp Wd V G C.
  destruct (safe_no_overflow _ _ _ (simulate_safe months P Wp Wd V G)
              (simulate_no_overflow months P C)) as (rows & E & S & _).
  now exists rows.
Qed.

Lemma magnitude_converts (x : pynum) :
  magnitude_below (2 ^ 1023) x = true -> converts x.
Proof.
  destruct x as [z | f]; [| reflexivity]. unfold magnitude_below, converts.
  intros B. apply Z.ltb_lt in B. now apply to_float_in_range.
Qed.

Lemma magnitude_divides (x : pynum) (c : Z) :
  magnitude_below (2 ^ 1023) x = true ->
  c = 100 \/ c = 10000 \/ c = 1000000 ->
  is_ok (truediv x (int_lit c)) = true.
Proof.
  destruct x as [z | f]; unfold magnitude_below.
  - intros B C. apply Z.ltb_lt in B.
    apply (int_truediv_in_range z c B). lia.
  - intros _ [-> | [-> | ->]]; reflexivity.
Qed.

Lemma in_range_convertible (P : Params pynum) :
  in_range P = true -> convertible P.
Proof.
  unfold in_range. rewrite !andb_true_iff.
  intros (((((((Pf & A) & S) & D) & U) & F) & B) & G).
  unfold convertible.
  repeat match goal with |- _ /\ _ => split end;
    try (now apply magnitude_converts);
    try (apply magnitude_divides; [assumption | lia]).
  - now destruct (initial_price P).
  - destruct (initial_aum P) as [z | f]; cbn [mul numeric py_mul int_lit].
    + exists (PInt (z * 1000000)). split; [reflexivity |].
      unfold converts. cbn [as_float]. apply to_float_in_range.
      unfold magnitude_below in A. apply Z.ltb_lt in A.
      assert (E : 2 ^ 1023 = 2 ^ 1003 * 1048576)
        by (change 1048576 with (2 ^ 20); rewrite <- Z.pow_add_r by lia;
            reflexivity).
      rewrite E, Z.abs_mul. change (Z.abs 1000000) with 1000000.
      pose proof (Z.abs_nonneg z). nia.
    + eexists. split; [reflexivity | reflexivity].
Qed.

Lemma binary64_run_returns_in_range (months : nat) (P : Params pynum) :
  well_formed (initial_price P) ->
  well_formed (liquidity_depth P) ->
  valid P = true ->
  growth_bounded (monthly_growth P) ->
  in_range P = true ->
  exists rows, simulate months P = Ok rows /\ Forall row_sound64 rows.
Proof.
  intros Wp Wd V G R.
  apply binary64_run_returns; try assumption. now apply in_range_convertible.
Qed.

End Binary64Totality.

Section ExactHoldings.

(** In exact arithmetic the holdings do not decide whether an iteration
    raises. *)
Lemma iteration_holdings_total (P1 P2 : Params Q) (fee_rate : Q)
    (s : LoopState Q) (l1 : Locals Q) :
  same_but_holdings P1 P2 ->
  iteration P1 fee_rate s = Ok l1 ->
  exists l2, iteration P2 fee_rate s = Ok l2.
Proof.
  intros (A & G & _ & _ & B & _ & D) E.
  unfold iteration, burn_of in *. rewrite <- G, <- B, <- D.
  do 15 (unbind E;
         match goal with
         | X : ?c = Ok _ |- context [?c] => rewrite X; cbn [bind]
         end).
  eexists. reflexivity.
Qed.

(** In exact arithmetic a run returns whatever the holdings are, if it
    returns for some holdings. *)
Lemma holdings_do_not_stop_the_run (months : nat) (P1 P2 : Params Q)
    (rows1 : list (Row Q)) :
  same_but_holdings P1 P2 ->
  simulate months P1 = Ok rows1 ->
  exists rows2, simulate months P2 = Ok rows2.
Proof.
  intros Same E.
  apply simulate_ok in E. destruct E as (fr & s0 & F & I & L).
  pose proof Same as (A & _ & S & Fe & _ & Pr & _).
  unfold simulate. unfold fee_rate_of in F. rewrite <- Fe, F. cbn [bind].
  unfold initial_state in *. rewrite <- A, <- S, <- Pr, I. cbn [bind].
  clear I F. revert s0 rows1 L. generalize 1%Z.
  induction months as [| n IH]; intros i s rows1 L.
  - now exists [].
  - apply loop_step in L. destruct L as (l1 & rest & I1 & L & ->).
    destruct (iteration_holdings_total _ _ _ _ _ Same I1) as (l2 & I2).
    destruct (iteration_same_but_holdings _ _ _ _ _ _ i Same I1 I2)
      as [Next _].
    rewrite Next in L. destruct (IH _ _ _ L) as (rest2 & L2).
    simpl. rewrite I2. cbn [bind]. rewrite loop_append, L2.
    now exists (row_of i l2 :: rest2).
Qed.

End ExactHoldings.

(* ------------------------------------------------------------------ *)
(** ** The invariants, in exact and in binary64 arithmetic *)

Section BothArithmetics.

Import Binary64.




End BothArithmetics.

(* ------------------------------------------------------------------ *)
(** ** What every row records, in any arithmetic *)

Section Recorded.

Context {num : Type} `{Numeric num}.

(** The revenue of a row is computed from the new AUM the month starts
    with; the new AUM the row records is that figure after the growth of
    line 120 has been applied. *)
Lemma new_aum_recorded_after_growth (months : nat) (P : Params num)
    (rows : list (Row num)) (k : nat) (r : Row num) :
  simulate months P = Ok rows ->
  nth_error rows k = Some r ->
  exists fee_rate s rate growth,
    fee_rate_of P = Ok fee_rate
    /\ state_entering P k = Ok s
    /\ mul (monthly_new_aum s) fee_rate = Ok (Revenue r)
    /\ truediv (monthly_growth P) (int_lit 100) = Ok rate
    /\ add (int_lit 1) rate = Ok growth
    /\ mul (monthly_new_aum s) growth = Ok (New_AUM r).
Proof.
  intros E N.
  destruct (simulate_nth _ _ _ _ _ E N)
    as (fr & s & l & F & St & I & _ & _ & ->).
  apply iteration_ok in I.
  destruct I as (_ & R & _ & _ & _ & _ & _ & _ & _
                 & (rt & g & Rt & G & An) & _).
  exists fr, s, rt, g. simpl. repeat split; assumption.
Qed.

End Recorded.

(* ------------------------------------------------------------------ *)
(** ** The scenario and other concrete runs *)

Section Concrete.

Import Binary64.
Local Open Scope Q_scope.

(** C1. With the scenario's inputs (new AUM 10, meaning 10,000,000;
    growth 1; supply 100,000,000; fee 25 basis points; burn 50 percent;
    price 0.50; depth 500,000) the first month computes a revenue of
    25,000, 50,000 tokens bought, 25,000 tokens burned with the circuit
    breaker not triggered, a market cap of 50,000,000, a depth of
    1,000,000, a price move of 0.025, a new price of 0.5125 and a new
    supply of 99,975,000: in exact arithmetic, and in binary64 arithmetic,
    where these are the variables behind the first row of
    [run_simulation]. *)
Theorem scenario_first_month :
  (exists s l,
     state_entering (@defaults Q _) 0 = Ok s
     /\ period (@defaults Q _) 0 = Ok l
     /\ scenario_figures s l = true)
  /\ (exists s l rows,
        state_entering (@defaults pynum _) 0 = Ok s
        /\ period (@defaults pynum _) 0 = Ok l
        /\ scenario_figures s l = true
        /\ run_simulation (@defaults pynum _) = Ok rows
        /\ nth_error rows 0 = Some (row_of 1 l)).
Proof.
  split.
  - eexists. eexists.
    split; [vm_compute; reflexivity |].
    split; [vm_compute; reflexivity |].
    vm_compute. reflexivity.
  - eexists. eexists. eexists.
    split; [vm_compute; reflexivity |].
    split; [vm_compute; reflexivity |].
    split; [vm_compute; reflexivity |].
    split; [vm_compute; reflexivity |].
    vm_compute. reflexivity.
Qed.

(** C3, as the code behaves. With the default inputs the first row
    records a revenue of 25,000 next to a new AUM of 10,100,000, so the
    revenue is not the recorded new AUM times the fee rate: in exact
    arithmetic and in binary64 arithmetic. *)
Theorem first_row_new_aum_is_next_months :
  (exists r,
     simulate 1 (@defaults Q _) = Ok [r]
     /\ Revenue r == 25000
     /\ New_AUM r == 10100000
     /\ revenue_matches_new_aum defaults r = Ok false)
  /\ (exists rows r,
        run_simulation (@defaults pynum _) = Ok rows
        /\ nth_error rows 0 = Some r
        /\ num_eq (Revenue r) (int_lit 25000) = true
        /\ num_eq (New_AUM r) (int_lit 10100000) = true
        /\ revenue_matches_new_aum defaults r = Ok false).
Proof.
  split.
  - eexists. split; [vm_compute; reflexivity |].
    split; [reflexivity |]. split; [reflexivity |].
    vm_compute. reflexivity.
  - eexists. eexists. split; [vm_compute; reflexivity |].
    split; [reflexivity |].
    split; [vm_compute; reflexivity |].
    split; [vm_compute; reflexivity |].
    vm_compute. reflexivity.
Qed.





End Concrete.

(* ------------------------------------------------------------------ *)
(** ** The theorems at concrete inputs *)

Section Instances.

Import Binary64.
Local Open Scope Q_scope.

(** Month 1 of [collapsing] starts with a supply of 1 token, below the
    threshold, and its burn is throttled. *)
Lemma burn_is_throttled_in_collapsing_run :
  exists rows r,
    simulate 2 (@collapsing pynum _) = Ok rows
    /\ nth_error rows 0 = Some r
    /\ exists s unthrottled,
         state_entering collapsing 0 = Ok s
         /\ supply_before collapsing rows 0 = Some (current_supply s)
         /\ price_before collapsing rows 0 = Some (current_price s)
         /\ unthrottled_burn collapsing (Revenue r) s = Ok unthrottled
         /\ (lt (current_supply s) (int_lit 1000000) = true ->
             throttled (current_supply s) unthrottled
             = Ok (Tokens_Burned r))
         /\ (lt (current_supply s) (int_lit 1000000) = false ->
             Tokens_Burned r = unthrottled).
Proof.
  eexists. eexists.
  split; [vm_compute; reflexivity |]. split; [reflexivity |].
  apply (burn_is_throttled_below_threshold 2 collapsing);
    [vm_compute; reflexivity | reflexivity].
Defined.

(** The second row of the default run is consistent. *)
Lemma default_row_values_are_products :
  exists rows r,
    run_simulation (@defaults pynum _) = Ok rows
    /\ nth_error rows 1 = Some r
    /\ mul (Supply r) (Token_Price r) = Ok (TTV r)
    /\ mul (user_tokens defaults) (Token_Price r) = Ok (Portfolio_Value r)
    /\ exists s',
         state_entering defaults 2 = Ok s'
         /\ Supply r = current_supply s'
         /\ Token_Price r = current_price s'.
Proof.
  eexists. eexists.
  split; [vm_compute; reflexivity |]. split; [reflexivity |].
  eapply (row_values_are_products 24 defaults _ 1);
    [vm_compute; reflexivity | reflexivity].
Defined.

(** The default run with 1,000,000 tokens held and with 5 tokens held. *)
Lemma default_holdings_only_reach_portfolio :
  exists rows1 rows2,
    same_but_holdings
      (@defaults pynum _)
      (params_of 10 1 100000000 25 50 (dec_lit 50 2) 500000 5)
    /\ run_simulation (@defaults pynum _) = Ok rows1
    /\ run_simulation
         (params_of 10 1 100000000 25 50 (dec_lit 50 2) 500000 5)
       = Ok rows2
    /\ Forall2 same_but_portfolio rows1 rows2.
Proof.
  eexists. eexists.
  assert (S : same_but_holdings
                (@defaults pynum _)
                (params_of 10 1 100000000 25 50 (dec_lit 50 2) 500000 5)).
  { repeat split; reflexivity. }
  split; [exact S |].
  split; [vm_compute; reflexivity |].
  split; [vm_compute; reflexivity |].
  apply (holdings_only_reach_portfolio 24 _ _ _ _ S);
    vm_compute; reflexivity.
Defined.






End Instances.


(* ------------------------------------------------------------------ *)
(** ** Binary64 arithmetic next to exact arithmetic *)

Section Binary64Runs.

Import Binary64.

(** The 24 rows of the default run in binary64 arithmetic: the supply
    falls and stays positive, the price rises, the total AUM rises. *)
Lemma default_run_is_steady_in_binary64 :
  exists rows,
    run_simulation (@defaults pynum _) = Ok rows
    /\ steady (initial_supply defaults) (initial_price defaults) (int_lit 0)
         rows = true.
Proof.
  eexists. split; [vm_compute; reflexivity |]. vm_compute. reflexivity.
Qed.

(** The same at the ends of the sliders: growth 0 and 20 percent, fee 5 and
    150 basis points, burn 0 and 100 percent; and with a supply that the
    burn exhausts in the first month. *)
Lemma slider_ends_are_steady_in_binary64 :
  forallb (@steady_run pynum _)
    [ params_of 10 0 100000000 5 0 (dec_lit 50 2) 500000 1000000;
      params_of 10 0 100000000 150 100 (dec_lit 50 2) 500000 1000000;
      params_of 10 20 100000000 5 0 (dec_lit 50 2) 500000 1000000;
      params_of 10 20 100000000 150 100 (dec_lit 50 2) 500000 1000000;
      params_of 1000 20 1000000 150 100 (dec_lit 1 2) 50000 1000000 ]
  = true.
Proof. vm_compute. reflexivity. Qed.

(** Where binary64 leaves exact arithmetic, 1: with [overflowing], inputs
    within the constraints of the parameter table and with no growth, the
    price overflows to infinity in month 16 and is not a number from
    month 17 on. *)
Lemma overflow_gives_nan_price :
  valid (@overflowing pynum _) = true
  /\ exists rows r,
       run_simulation (@overflowing pynum _) = Ok rows
       /\ nth_error rows 16 = Some r
       /\ Token_Price r = PFloat S754_nan
       /\ lt (int_lit 0) (Token_Price r) = false.
Proof.
  split; [reflexivity |].
  eexists. eexists. split; [vm_compute; reflexivity |].
  split; [reflexivity |]. split; reflexivity.
Qed.

(** Where binary64 leaves exact arithmetic, 2: an integer input too large
    for a float raises [OverflowError] in the first month. *)
Lemma huge_supply_raises_overflow :
  valid (@huge pynum _) = true
  /\ run_simulation (@huge pynum _) = Raise OverflowError
  /\ is_ok (simulate 1 (@huge Q _)) = true.
Proof. repeat split; vm_compute; reflexivity. Qed.

End Binary64Runs.

(* ------------------------------------------------------------------ *)
(** ** The ledgers of a run, in any arithmetic *)

Section Ledgers.

Context {num : Type} `{Numeric num}.

(** The state a run enters month 1 in: no AUM yet, and the seed
    [initial_aum * 1_000_000] as the new AUM of the month. *)
Lemma state_entering_seed (P : Params num) (s : LoopState num) :
  state_entering P 0 = Ok s ->
  total_aum s = int_lit 0
  /\ mul (initial_aum P) (int_lit 1000000) = Ok (monthly_new_aum s).
Proof.
  unfold state_entering, initial_state. intros E. do 2 unbind E.
  unbind E1. simpl in E. injection E1 as <-. injection E as <-. now split.
Qed.

(** The state a month starts in holds what the previous row records. *)
Lemma state_entering_row (months : nat) (P : Params num)
    (rows : list (Row num)) (k : nat) (r : Row num) (s : LoopState num) :
  simulate months P = Ok rows ->
  nth_error rows k = Some r ->
  state_entering P (S k) = Ok s ->
  current_supply s = Supply r
  /\ current_price s = Token_Price r
  /\ total_aum s = Total_AUM r
  /\ monthly_new_aum s = New_AUM r.
Proof.
  intros E N St.
  destruct (simulate_nth _ _ _ _ _ E N)
    as (fr & sk & l & _ & _ & _ & _ & St' & ->).
  rewrite St in St'. injection St' as ->. now repeat split.
Qed.

(** X1. The supply a row records is the supply the month started from
    (the initial supply in month 1, the supply of the previous row
    afterwards) less the burn the row records, or zero when that
    difference is not above zero. *)
Theorem supply_is_reduced_by_the_burn (months : nat) (P : Params num)
    (rows : list (Row num)) (k : nat) (r : Row num) :
  simulate months P = Ok rows ->
  nth_error rows k = Some r ->
  exists supply reduced,
    supply_before P rows k = Some supply
    /\ sub supply (Tokens_Burned r) = Ok reduced
    /\ Supply r = (if lt (int_lit 0) reduced then reduced else int_lit 0).
Proof.
  intros E N.
  destruct (simulate_nth _ _ _ _ _ E N)
    as (fr & s & l & _ & St & I & _ & _ & ->).
  destruct (state_entering_before _ _ _ _ _ _ E N St) as [SB _].
  apply iteration_ok in I.
  destruct I as (_ & _ & _ & _ & _ & _ & _ & _ & (red & Re & Sn) & _).
  exists (current_supply s), red. simpl. repeat split; assumption.
Qed.

(** X2. The depth a row records is the base liquidity plus one percent of
    the market capitalisation the month started from, and the price it
    records is the price the month started from times one plus the
    revenue of the row over that depth. *)
Theorem price_moves_by_revenue_over_depth (months : nat) (P : Params num)
    (rows : list (Row num)) (k : nat) (r : Row num) :
  simulate months P = Ok rows ->
  nth_error rows k = Some r ->
  exists supply price mcap share move factor,
    supply_before P rows k = Some supply
    /\ price_before P rows k = Some price
    /\ mul supply price = Ok mcap
    /\ mul mcap (dec_lit 1 2) = Ok share
    /\ add (liquidity_depth P) share = Ok (Market_Depth r)
    /\ truediv (Revenue r) (Market_Depth r) = Ok move
    /\ add (int_lit 1) move = Ok factor
    /\ mul price factor = Ok (Token_Price r).
Proof.
  intros E N.
  destruct (simulate_nth _ _ _ _ _ E N)
    as (fr & s & l & _ & St & I & _ & _ & ->).
  destruct (state_entering_before _ _ _ _ _ _ E N St) as [SB PB].
  apply iteration_ok in I.
  destruct I as (_ & _ & _ & _ & M & (sh & Sh & D) & Mv & (f & F & Pn) & _).
  exists (current_supply s), (current_price s), (l_current_mcap l), sh,
    (l_price_move_pct l), f.
  simpl. repeat split; assumption.
Qed.

(** X3. The new AUM a row records is the base of the next month.  A row's
    total AUM is the total of the previous row plus the new AUM the
    previous row records, its revenue is that new AUM times the fee rate
    [fee_bps / 10000], and the new AUM it records is that new AUM times
    [1 + monthly_growth / 100].  The first row starts from a total of zero
    and the seed [initial_aum * 1_000_000] instead. *)
Theorem aum_rolls_forward (months : nat) (P : Params num)
    (rows : list (Row num)) (k : nat) (r : Row num) :
  simulate months P = Ok rows ->
  nth_error rows k = Some r ->
  exists fee_rate rate growth total new,
    fee_rate_of P = Ok fee_rate
    /\ truediv (monthly_growth P) (int_lit 100) = Ok rate
    /\ add (int_lit 1) rate = Ok growth
    /\ match k with
       | O =>
           total = int_lit 0
           /\ mul (initial_aum P) (int_lit 1000000) = Ok new
       | S j =>
           exists previous,
             nth_error rows j = Some previous
             /\ total = Total_AUM previous
             /\ new = New_AUM previous
       end
    /\ add total new = Ok (Total_AUM r)
    /\ mul new fee_rate = Ok (Revenue r)
    /\ mul new growth = Ok (New_AUM r).
Proof.
  intros E N.
  destruct (simulate_nth _ _ _ _ _ E N)
    as (fr & s & l & F & St & I & _ & _ & ->).
  apply iteration_ok in I.
  destruct I as (T & R & _ & _ & _ & _ & _ & _ & _
                 & (rt & g & Rt & G & An) & _).
  exists fr, rt, g, (total_aum s), (monthly_new_aum s). simpl.
  repeat split; try assumption.
  destruct k as [| j].
  - exact (state_entering_seed _ _ St).
  - assert (J : (j < length rows)%nat).
    { apply Nat.lt_succ_l. apply nth_error_Some. congruence. }
    apply nth_error_Some in J.
    destruct (nth_error rows j) as [rj |] eqn:Nj; [| congruence].
    destruct (state_entering_row _ _ _ _ _ _ E Nj St) as (_ & _ & A & B).
    exists rj. now repeat split.
Qed.

(** The AUM of a month is computed from the AUM of the month before and
    the growth rate only. *)
Lemma iteration_same_aum (P1 P2 : Params num) (fee1 fee2 : num)
    (s1 s2 : LoopState num) (l1 l2 : Locals num) :
  monthly_growth P1 = monthly_growth P2 ->
  total_aum s1 = total_aum s2 ->
  monthly_new_aum s1 = monthly_new_aum s2 ->
  iteration P1 fee1 s1 = Ok l1 ->
  iteration P2 fee2 s2 = Ok l2 ->
  l_total_aum l1 = l_total_aum l2
  /\ l_monthly_new_aum l1 = l_monthly_new_aum l2.
Proof.
  intros G T A I1 I2. apply iteration_ok in I1, I2.
  destruct I1 as (T1 & _ & _ & _ & _ & _ & _ & _ & _
                  & (rt1 & g1 & Rt1 & G1 & An1) & _).
  destruct I2 as (T2 & _ & _ & _ & _ & _ & _ & _ & _
                  & (rt2 & g2 & Rt2 & G2 & An2) & _).
  rewrite <- G, Rt1 in Rt2. injection Rt2 as <-.
  rewrite G1 in G2. injection G2 as <-.
  rewrite <- T, <- A, T1 in T2. rewrite <- A, An1 in An2.
  injection T2 as <-. injection An2 as <-. now split.
Qed.

Lemma loop_same_aum (P1 P2 : Params num) (fee1 fee2 : num) (n : nat) :
  monthly_growth P1 = monthly_growth P2 ->
  forall i s1 s2 rows1 rows2,
    total_aum s1 = total_aum s2 ->
    monthly_new_aum s1 = monthly_new_aum s2 ->
    loop P1 fee1 n i s1 [] = Ok rows1 ->
    loop P2 fee2 n i s2 [] = Ok rows2 ->
    map (@Total_AUM num) rows1 = map (@Total_AUM num) rows2
    /\ map (@New_AUM num) rows1 = map (@New_AUM num) rows2.
Proof.
  intros G. induction n as [| n IH]; intros i s1 s2 rows1 rows2 T A E1 E2.
  - simpl in E1, E2. injection E1 as <-. injection E2 as <-. now split.
  - apply loop_step in E1. destruct E1 as (l1 & rest1 & I1 & E1 & ->).
    apply loop_step in E2. destruct E2 as (l2 & rest2 & I2 & E2 & ->).
    destruct (iteration_same_aum _ _ _ _ _ _ _ _ G T A I1 I2) as [T' A'].
    destruct (IH _ (next_state l1) (next_state l2) _ _ T' A' E1 E2)
      as [Ts As].
    simpl. rewrite T', A', Ts, As. now split.
Qed.

(** X4. The AUM columns do not depend on the token: two runs with the same
    [initial_aum] and [monthly_growth] record the same total AUM and the
    same new AUM in every row, whatever their fee, burn rate, supply,
    price, market depth and holdings. *)
Theorem aum_ignores_token_mechanics (months : nat) (P1 P2 : Params num)
    (rows1 rows2 : list (Row num)) :
  initial_aum P1 = initial_aum P2 ->
  monthly_growth P1 = monthly_growth P2 ->
  simulate months P1 = Ok rows1 ->
  simulate months P2 = Ok rows2 ->
  map (@Total_AUM num) rows1 = map (@Total_AUM num) rows2
  /\ map (@New_AUM num) rows1 = map (@New_AUM num) rows2.
Proof.
  intros A G E1 E2.
  apply simulate_ok in E1. destruct E1 as (fr1 & s1 & _ & I1 & L1).
  apply simulate_ok in E2. destruct E2 as (fr2 & s2 & _ & I2 & L2).
  unfold initial_state in I1, I2. rewrite <- A in I2.
  unbind I1. unbind I2. rewrite E in E0. injection E0 as <-.
  injection I1 as <-. injection I2 as <-.
  eapply (loop_same_aum P1 P2 fr1 fr2 months G);
    [| | exact L1 | exact L2]; reflexivity.
Qed.

Lemma loop_prefix (P : Params num) (fee_rate : num) (m n : nat) :
  forall i s rows,
    loop P fee_rate (n + m) i s [] = Ok rows ->
    loop P fee_rate n i s [] = Ok (firstn n rows).
Proof.
  induction n as [| n IH]; intros i s rows E.
  - reflexivity.
  - change (S n + m)%nat with (S (n + m)) in E.
    apply loop_step in E. destruct E as (l & rest & I & E & ->).
    simpl. rewrite I. cbn [bind].
    rewrite loop_append, (IH _ _ _ E). reflexivity.
Qed.

(** X5. The months of a run do not depend on the horizon: when a run of
    [n + m] months returns, the run of [n] months returns too, and its
    rows are the first [n] rows of the longer run. *)
Theorem shorter_run_is_a_prefix (n m : nat) (P : Params num)
    (rows : list (Row num)) :
  simulate (n + m) P = Ok rows ->
  simulate n P = Ok (firstn n rows).
Proof.
  intros E. apply simulate_ok in E. destruct E as (fr & s0 & F & I & L).
  unfold simulate. unfold fee_rate_of in F. rewrite F, I. cbn [bind].
  exact (loop_prefix _ _ _ _ _ _ _ L).
Qed.

End Ledgers.

(* ------------------------------------------------------------------ *)
(** ** Exact arithmetic: the AUM in closed form *)

Section ExactAum.

Local Open Scope Q_scope.

Variable P : Params Q.
Variable fee_rate : Q.



End ExactAum.

Section ExactAumRun.

Local Open Scope Q_scope.


End ExactAumRun.

(* ------------------------------------------------------------------ *)
(** ** Exact arithmetic: bounds on the burn and on the price move *)

Section ExactBounds.

Local Open Scope Q_scope.

Variable P : Params Q.
Variable fee_rate : Q.

Hypothesis fee_nonneg : 0 <= fee_rate.
Hypothesis burn_nonneg : 0 <= burn_pct P.




End ExactBounds.

Section ExactBoundsRun.

Local Open Scope Q_scope.

Variable P : Params Q.
Variable months : nat.




End ExactBoundsRun.

Section Trajectory.

Context {num : Type} `{Numeric num}.

(** [a + b] months are [a] months followed by [b] months. *)
Lemma state_after_add (P : Params num) (fee_rate : num) (a b : nat) :
  forall s,
    state_after P fee_rate (a + b) s =
    (sa <- state_after P fee_rate a s ;; state_after P fee_rate b sa).
Proof.
  induction a as [| a IH]; intros s; [reflexivity |].
  cbn [Nat.add state_after].
  destruct (iteration P fee_rate s) as [l | e]; [| reflexivity].
  cbn [bind]. apply IH.
Qed.


(** The state a later month starts in is reached from the state an earlier
    month starts in. *)
Lemma state_entering_later (P : Params num) (a d : nat)
    (sa s : LoopState num) (fee_rate : num) :
  fee_rate_of P = Ok fee_rate ->
  state_entering P a = Ok sa ->
  state_entering P (a + d) = Ok s ->
  state_after P fee_rate d sa = Ok s.
Proof.
  intros F A B. unfold state_entering in A, B.
  rewrite F in A, B. cbn [bind] in A, B. unbind A. unbind B.
  rewrite E in E0. injection E0 as <-.
  rewrite state_after_add, A in B. exact B.
Qed.

End Trajectory.

(* ------------------------------------------------------------------ *)
(** ** Exact arithmetic: runs without supply, revenue or burn *)

Section ExactRegimes.

Local Open Scope Q_scope.

Variable P : Params Q.
Variable fee_rate : Q.

Lemma py_max_keeps (x y : Q) :
  x == y -> 0 <= y -> py_max (int_lit 0) x == y.
Proof.
  intros E Y. destruct (py_max_exact x) as (A & B & [C | C]).
  - now rewrite C.
  - rewrite C in *. lra.
Qed.


(** A month that starts with no supply burns nothing and ends with no
    supply. *)
Lemma iteration_empty_supply (s : LoopState Q) (l : Locals Q) :
  current_supply s == 0 ->
  iteration P fee_rate s = Ok l ->
  l_tokens_burned l == 0
  /\ l_current_supply l == 0
  /\ l_total_token_value l == 0.
Proof.
  intros S0 E. apply iteration_ok in E.
  destruct E as (_ & _ & _ & (u & _ & C) & _ & _ & _ & _
                 & (red & Re & Sn) & _ & _ & T).
  apply sub_exact in Re. apply mul_exact in T.
  assert (B : l_tokens_burned l == 0).
  { unfold circuit_breaker in C.
    destruct (lt (current_supply s) CRITICAL_SUPPLY_THRESHOLD) eqn:L.
    - do 2 unbind C. apply mul_exact in E0, C.
      apply truediv_exact in E. destruct E as [_ E].
      rewrite C, E0, E, S0. unfold Qdiv. ring.
    - apply lt_exact_false in L.
      change CRITICAL_SUPPLY_THRESHOLD with 1000000 in L. lra. }
  assert (S1 : l_current_supply l == 0).
  { rewrite Sn. apply py_max_keeps; [| apply Qle_refl].
    rewrite Re, S0, B. ring. }
  split; [exact B |]. split; [exact S1 |]. rewrite T, S1. ring.
Qed.



End ExactRegimes.

Section ExactRegimesRun.

Local Open Scope Q_scope.

Variable P : Params Q.
Variable months : nat.

(** In exact arithmetic an empty supply stays empty: once a row records a
    supply of zero, every later row records a burn of zero, a supply of
    zero and a total token value of zero. *)
Lemma exact_empty_supply_stays_empty (rows : list (Row Q)) (k d : nat)
    (r r' : Row Q) :
  simulate months P = Ok rows ->
  nth_error rows k = Some r ->
  nth_error rows (S k + d) = Some r' ->
  Supply r == 0 ->
  Tokens_Burned r' == 0 /\ Supply r' == 0 /\ TTV r' == 0.
Proof.
  intros E N N' Z.
  destruct (simulate_nth _ _ _ _ _ E N)
    as (fr & s & l & F & _ & _ & _ & St & ->).
  destruct (simulate_nth _ _ _ _ _ E N')
    as (fr' & s' & l' & F' & St' & I' & _ & _ & ->).
  rewrite F in F'. injection F' as <-.
  pose proof (state_entering_later _ _ _ _ _ _ F St St') as A.
  assert (Z' : current_supply s' == 0).
  { apply (state_after_invariant P fr (fun a => current_supply a == 0))
      with (k := d) (s := next_state l); [| exact Z | exact A].
    intros a b Za Ia.
    destruct (iteration_empty_supply P fr a b Za Ia) as (_ & S1 & _).
    exact S1. }
  exact (iteration_empty_supply P fr s' l' Z' I').
Qed.



End ExactRegimesRun.

Section Binary64EmptySupply.

Import Binary64.

Lemma mul_zero_or_nan_r (x y v : pynum) :
  zero_or_nan y -> mul x y = Ok v -> zero_or_nan v.
Proof.
  intros Y. change (mul x y) with (py_mul x y).
  destruct y as [z | g]; [contradiction |].
  assert (M : forall a, zero_or_nan (PFloat (SFmul prec emax a g))).
  { intros a. destruct g as [sg | sg | | sg mg eg]; try contradiction;
      destruct a as [sa | sa | | sa ma ea]; exact I. }
  destruct x as [z | f]; cbn [py_mul]; unfold float_op; intros E.
  - unbind E. cbn [bind as_float] in E. injection E as <-. apply M.
  - cbn [bind as_float] in E. injection E as <-. apply M.
Qed.

Lemma mul_zero_or_nan_l (x y v : pynum) :
  zero_or_nan x -> mul x y = Ok v -> zero_or_nan v.
Proof.
  intros X. change (mul x y) with (py_mul x y).
  destruct x as [z | f]; [contradiction |].
  assert (M : forall b, zero_or_nan (PFloat (SFmul prec emax f b))).
  { intros b. destruct f as [sf | sf | | sf mf ef]; try contradiction;
      destruct b as [sb | sb | | sb mb eb]; exact I. }
  destruct y as [z | g]; cbn [py_mul]; unfold float_op;
    cbn [bind as_float]; intros E.
  - unbind E. injection E as <-. apply M.
  - injection E as <-. apply M.
Qed.

(** A month that starts with the integer supply [0] ends with it, and its
    burn is a zero or not a number. *)
Lemma iteration_empty_supply64 (P : Params pynum) (fee_rate : pynum)
    (s : LoopState pynum) (l : Locals pynum) :
  current_supply s = PInt 0 ->
  iteration P fee_rate s = Ok l ->
  l_current_supply l = PInt 0 /\ zero_or_nan (l_tokens_burned l).
Proof.
  intros S0 E. apply iteration_ok in E.
  destruct E as (_ & _ & _ & (u & _ & C) & _ & _ & _ & _
                 & (red & Re & Sn) & _).
  rewrite S0 in C, Re.
  unfold circuit_breaker in C.
  change (lt (PInt 0) CRITICAL_SUPPLY_THRESHOLD) with true in C.
  cbn iota in C. do 2 unbind C.
  assert (V : zero_or_nan v).
  { vm_compute in E. injection E as <-. exact I. }
  pose proof (mul_zero_or_nan_r _ _ _ V E0) as V0.
  pose proof (mul_zero_or_nan_l _ _ _ V0 C) as B.
  split; [| exact B].
  rewrite Sn. destruct (l_tokens_burned l) as [z | b]; [contradiction |].
  change (sub (PInt 0) (PFloat b)) with (py_sub (PInt 0) (PFloat b)) in Re.
  destruct b as [[] | sb | | sb mb eb]; try contradiction;
    vm_compute in Re; injection Re as <-; reflexivity.
Qed.

(** In Python's arithmetic the supply a row records as zero is the integer
    [0] of the clamp, and it stays: every later row records the supply [0]
    and a burn that is a zero or, after an overflow, not a number. *)
Lemma binary64_empty_supply_stays_empty (months : nat) (P : Params pynum)
    (rows : list (Row pynum)) (k d : nat) (r r' : Row pynum) :
  simulate months P = Ok rows ->
  nth_error rows k = Some r ->
  nth_error rows (S k + d) = Some r' ->
  Supply r = PInt 0 ->
  Supply r' = PInt 0 /\ zero_or_nan (Tokens_Burned r').
Proof.
  intros E N N' Z.
  destruct (simulate_nth _ _ _ _ _ E N)
    as (fr & s & l & F & _ & _ & _ & St & ->).
  destruct (simulate_nth _ _ _ _ _ E N')
    as (fr' & s' & l' & F' & St' & I' & _ & _ & ->).
  rewrite F in F'. injection F' as <-.
  pose proof (state_entering_later _ _ _ _ _ _ F St St') as A.
  assert (Z' : current_supply s' = PInt 0).
  { apply (state_after_invariant P fr (fun a => current_supply a = PInt 0))
      with (k := d) (s := next_state l); [| exact Z | exact A].
    intros a b Za Ia.
    exact (proj1 (iteration_empty_supply64 P fr a b Za Ia)). }
  exact (iteration_empty_supply64 P fr s' l' Z' I').
Qed.

(** X9. An empty supply stays empty, whatever the inputs: once a row
    records a supply of zero, every later row records a supply of zero
    and burns nothing.  In exact arithmetic the later burn and total token
    value are zero; in Python's arithmetic the recorded zero is the integer
    [0] of the clamp and the later burn is a float zero or, after an
    overflow, not a number. *)
Theorem empty_supply_stays_empty :
  (forall (P : Params Q) (months : nat) (rows : list (Row Q)) (k d : nat)
          (r r' : Row Q),
      simulate months P = Ok rows ->
      nth_error rows k = Some r ->
      nth_error rows (S k + d) = Some r' ->
      (Supply r == 0)%Q ->
      (Tokens_Burned r' == 0 /\ Supply r' == 0 /\ TTV r' == 0)%Q)
  /\ (forall (P : Params pynum) (months : nat) (rows : list (Row pynum))
             (k d : nat) (r r' : Row pynum),
         simulate months P = Ok rows ->
         nth_error rows k = Some r ->
         nth_error rows (S k + d) = Some r' ->
         Supply r = PInt 0 ->
         Supply r' = PInt 0 /\ zero_or_nan (Tokens_Burned r')).
Proof.
  split.
  - exact exact_empty_supply_stays_empty.
  - intros P months. exact (binary64_empty_supply_stays_empty months P).
Qed.

End Binary64EmptySupply.

(* ------------------------------------------------------------------ *)
(** ** A starting price of zero *)

Section ZeroPrice.

Import Binary64.

Lemma exact_zero_price_raises (P : Params Q) (n : nat) :
  (initial_price P == 0)%Q ->
  simulate (S n) P = Raise ZeroDivisionError.
Proof.
  intros Z. unfold simulate.
  rewrite (truediv_total (fee_bps P) (int_lit 10000)) by discriminate.
  cbn [bind initial_state loop iteration add mul Exact.numeric Exact.q_add
       Exact.q_mul total_aum monthly_new_aum current_price].
  cbn [truediv Exact.numeric]. unfold Exact.q_truediv at 1.
  apply Qeq_bool_iff in Z. rewrite Z. reflexivity.
Qed.

Lemma binary64_zero_price_raises (P : Params pynum) (n : nat) (sign : bool) :
  initial_price P = PFloat (S754_zero sign) ->
  in_range P = true ->
  simulate (S n) P = Raise ZeroDivisionError.
Proof.
  intros Z R.
  destruct (in_range_convertible P R)
    as (_ & _ & _ & _ & _ & Fo & _ & _ & seed & Se & Sv).
  unfold simulate.
  destruct (truediv (fee_bps P) (int_lit 10000)) as [fr | e] eqn:F;
    [| discriminate Fo].
  pose proof (py_truediv_float _ _ _ F) as Ff.
  destruct fr as [z | g]; [contradiction |].
  unfold initial_state. rewrite Se, Z.
  cbn [bind loop]. unfold iteration.
  cbn [total_aum monthly_new_aum current_price].
  destruct (as_float_converts seed Sv) as (a & A).
  assert (T : exists t, add (int_lit 0) seed = Ok t).
  { destruct seed as [z | f]; [now eexists |].
    cbn. eexists. reflexivity. }
  destruct T as (t & ->). cbn [bind].
  assert (M : mul seed (PFloat g) = Ok (PFloat (SFmul prec emax a g))).
  { change (mul seed (PFloat g)) with (py_mul seed (PFloat g)).
    destruct seed as [z | f]; unfold py_mul, float_op; rewrite A;
      reflexivity. }
  rewrite M. cbn [bind truediv numeric py_truediv as_float is_zero].
  reflexivity.
Qed.

(** X12. A starting price of zero stops the run in its first month, where
    the revenue is divided by the price: in exact arithmetic for every
    other input, in binary64 arithmetic for a float zero of either sign
    and other inputs within the range of the floats, the run raises
    [ZeroDivisionError] and returns no row. *)
Theorem zero_price_raises :
  (forall (P : Params Q) (n : nat),
      (initial_price P == 0)%Q ->
      simulate (S n) P = Raise ZeroDivisionError)
  /\ (forall (P : Params pynum) (n : nat) (sign : bool),
         initial_price P = PFloat (S754_zero sign) ->
         in_range P = true ->
         simulate (S n) P = Raise ZeroDivisionError).
Proof.
  split.
  - exact exact_zero_price_raises.
  - exact binary64_zero_price_raises.
Qed.

End ZeroPrice.

(* ------------------------------------------------------------------ *)
(** ** Binary64 arithmetic: the types of the columns *)

Section Binary64Types.

Import Binary64.

Lemma float_op_float (op : float -> float -> float) (x y v : pynum) :
  float_op op x y = Ok v -> is_float v.
Proof.
  unfold float_op. intros E. do 2 unbind E. injection E as <-. exact I.
Qed.

Lemma py_add_float (x y v : pynum) :
  is_float x \/ is_float y -> add x y = Ok v -> is_float v.
Proof.
  intros F. change (add x y) with (py_add x y).
  destruct x, y; cbn [py_add]; try apply float_op_float.
  cbn in F. tauto.
Qed.

Lemma py_sub_float (x y v : pynum) :
  is_float x \/ is_float y -> sub x y = Ok v -> is_float v.
Proof.
  intros F. change (sub x y) with (py_sub x y).
  destruct x, y; cbn [py_sub]; try apply float_op_float.
  cbn in F. tauto.
Qed.

Lemma py_mul_float (x y v : pynum) :
  is_float x \/ is_float y -> mul x y = Ok v -> is_float v.
Proof.
  intros F. change (mul x y) with (py_mul x y).
  destruct x, y; cbn [py_mul]; try apply float_op_float.
  cbn in F. tauto.
Qed.

(** The variables of an iteration that are floats whatever the state. *)
Lemma iteration_floats (P : Params pynum) (fee_rate : pynum)
    (s : LoopState pynum) (l : Locals pynum) (i : Z) :
  is_float fee_rate ->
  iteration P fee_rate s = Ok l ->
  float_columns (row_of i l)
  /\ (is_float (monthly_new_aum s) -> is_float (l_total_aum l)).
Proof.
  intros Ff E. apply iteration_ok in E.
  destruct E as (T & R & B & (u & U & C) & M & (sh & Sh & D) & Mv
                 & (f & F & Pn) & (red & Re & Sn) & (rt & g & Rt & G & An)
                 & V & W).
  pose proof (py_mul_float _ _ _ (or_intror Ff) R) as Rf.
  pose proof (py_truediv_float _ _ _ B) as Bf.
  assert (Uf : is_float u).
  { unfold burn_of in U. unbind U.
    exact (py_mul_float _ _ _ (or_introl Bf) U). }
  assert (Cf : is_float (l_tokens_burned l)).
  { unfold circuit_breaker in C.
    destruct (lt (current_supply s) CRITICAL_SUPPLY_THRESHOLD).
    - do 2 unbind C. exact (py_mul_float _ _ _ (or_intror hundredth_float) C).
    - now injection C as <-. }
  pose proof (py_mul_float _ _ _ (or_intror hundredth_float) Sh) as Shf.
  pose proof (py_add_float _ _ _ (or_intror Shf) D) as Df.
  pose proof (py_truediv_float _ _ _ Mv) as Mf.
  pose proof (py_add_float _ _ _ (or_intror Mf) F) as Ff'.
  pose proof (py_mul_float _ _ _ (or_intror Ff') Pn) as Pf.
  pose proof (py_sub_float _ _ _ (or_intror Cf) Re) as Ref.
  pose proof (py_truediv_float _ _ _ Rt) as Rtf.
  pose proof (py_add_float _ _ _ (or_intror Rtf) G) as Gf.
  pose proof (py_mul_float _ _ _ (or_intror Gf) An) as Af.
  pose proof (py_mul_float _ _ _ (or_intror Pf) V) as Vf.
  pose proof (py_mul_float _ _ _ (or_intror Pf) W) as Wf.
  split.
  - unfold float_columns. cbn [row_of New_AUM Revenue Token_Price TTV
                               Tokens_Burned Market_Depth Portfolio_Value
                               Supply].
    repeat split; try assumption.
    rewrite Sn. unfold py_max.
    destruct (lt (int_lit 0) red); [now left | now right].
  - intros Nf. exact (py_add_float _ _ _ (or_intror Nf) T).
Qed.

(** X13. In Python's arithmetic the new AUM, the revenue, the price, the
    total token value, the burn, the depth and the portfolio value of
    every row are floats, whatever the inputs are (integers or floats);
    the supply is a float or the integer 0 of the clamp; and from the
    second row on the total AUM is a float too. *)
Theorem columns_are_floats (months : nat) (P : Params pynum)
    (rows : list (Row pynum)) (k : nat) (r : Row pynum) :
  simulate months P = Ok rows ->
  nth_error rows k = Some r ->
  float_columns r /\ (k <> 0%nat -> is_float (Total_AUM r)).
Proof.
  intros E N.
  destruct (simulate_nth _ _ _ _ _ E N)
    as (fr & s & l & F & St & It & _ & _ & ->).
  assert (Ff : is_float fr) by exact (py_truediv_float _ _ _ F).
  destruct (iteration_floats P fr s l (Z.of_nat (S k)) Ff It) as [A B].
  split; [exact A |]. intros K. cbn [row_of Total_AUM]. apply B.
  destruct k as [| j]; [contradiction |].
  assert (J : (j < length rows)%nat).
  { apply Nat.lt_succ_l. apply nth_error_Some. congruence. }
  apply nth_error_Some in J.
  destruct (nth_error rows j) as [rj |] eqn:Nj; [| congruence].
  destruct (simulate_nth _ _ _ _ _ E Nj)
    as (fr' & s' & l' & F' & _ & It' & _ & St' & _).
  rewrite F in F'. injection F' as <-.
  rewrite St in St'. injection St' as ->.
  destruct (iteration_floats P fr s' l' 0 Ff It') as [(Nf & _) _].
  exact Nf.
Qed.

End Binary64Types.

(* ------------------------------------------------------------------ *)
(** ** Binary64 arithmetic: the inputs of the sidebar *)

Section Sidebar.

Import Binary64.
Local Open Scope Z_scope.

Lemma leq_int (a b : Z) : a <= b -> leq (PInt a) (PInt b) = true.
Proof.
  intros L. unfold leq. cbn [lt num_eq numeric]. unfold py_lt, py_eq.
  cbn [py_compare]. destruct (Z.compare_spec a b); try reflexivity. lia.
Qed.

Lemma slider_bounds (lo hi : Z) (x : pynum) :
  slider lo hi x = true -> exists z, x = PInt z /\ lo <= z <= hi.
Proof.
  destruct x as [z | f]; [| discriminate]. unfold slider.
  rewrite andb_true_iff, !Z.leb_le. intros B. now exists z.
Qed.

(** X14. Whatever the sliders of the sidebar are set to, when the number
    inputs hold a positive price, depth and supply and a new AUM that is
    not negative, all within the range of the floats, [run_simulation]
    raises nothing in Python's arithmetic: it returns 24 rows, numbered 1
    to 24, whose supply is not negative and whose price and depth are
    neither zero nor negative. *)
Theorem sidebar_run_returns (P : Params pynum) :
  sidebar P = true ->
  lt (int_lit 0) (initial_price P) = true ->
  lt (int_lit 0) (liquidity_depth P) = true ->
  lt (int_lit 0) (initial_supply P) = true ->
  leq (int_lit 0) (initial_aum P) = true ->
  in_range P = true ->
  exists rows,
    run_simulation P = Ok rows
    /\ length rows = 24%nat
    /\ map (@Month pynum) rows = map Z.of_nat (seq 1 24)
    /\ Forall row_sound64 rows.
Proof.
  unfold sidebar. rewrite !andb_true_iff.
  intros (((((((A & G) & S) & F) & B) & Pf) & D) & U) Pp Dp Sp Ap R.
  destruct (slider_bounds _ _ _ G) as (g & Eg & Bg).
  destruct (slider_bounds _ _ _ F) as (f & Ef & Bf).
  destruct (slider_bounds _ _ _ B) as (b & Eb & Bb).
  assert (V : valid P = true).
  { unfold valid. rewrite Pp, Dp, Sp, Ap, Ef, Eb. cbn [andb].
    change (int_lit 0) with (PInt 0). change (int_lit 10000) with (PInt 10000).
    change (int_lit 100) with (PInt 100).
    rewrite !leq_int by lia. reflexivity. }
  assert (Wp : well_formed (initial_price P)).
  { destruct (initial_price P) as [z | p]; [exact I | exact Pf]. }
  assert (Wd : well_formed (liquidity_depth P)).
  { destruct (liquidity_depth P) as [z | p]; [exact I | discriminate D]. }
  assert (Gb : growth_bounded (monthly_growth P)).
  { right. exists g. split; [exact Eg | lia]. }
  destruct (binary64_run_returns_in_range 24 P Wp Wd V Gb R)
    as (rows & E & So).
  exists rows. split; [exact E |].
  destruct (simulate_shape 24 P rows E) as [Le Mo].
  split; [exact Le |]. split; [exact Mo | exact So].
Qed.

End Sidebar.

(* ------------------------------------------------------------------ *)
(** ** Exact arithmetic: a month with revenue *)

Section ExactRevenue.

Local Open Scope Q_scope.

Variable P : Params Q.
Variable fee_rate : Q.

Hypothesis fee_positive : 0 < fee_rate.
Hypothesis depth_positive : 0 < liquidity_depth P.
Hypothesis growth_above : -100 < monthly_growth P.



End ExactRevenue.

Section ExactRevenueRun.

Local Open Scope Q_scope.


End ExactRevenueRun.

(* ------------------------------------------------------------------ *)
(** ** The further theorems at concrete inputs *)

Section FurtherInstances.

Import Binary64.
Local Open Scope Q_scope.

(** The second row of the default run. *)
Lemma default_supply_is_reduced_by_the_burn :
  exists rows r,
    run_simulation (@defaults pynum _) = Ok rows
    /\ nth_error rows 1 = Some r
    /\ exists supply reduced,
         supply_before defaults rows 1 = Some supply
         /\ sub supply (Tokens_Burned r) = Ok reduced
         /\ Supply r = (if lt (int_lit 0) reduced then reduced else int_lit 0).
Proof.
  eexists. eexists.
  split; [vm_compute; reflexivity |]. split; [reflexivity |].
  eapply (supply_is_reduced_by_the_burn 24 defaults _ 1);
    [vm_compute; reflexivity | reflexivity].
Defined.

Lemma default_price_moves_by_revenue_over_depth :
  exists rows r,
    run_simulation (@defaults pynum _) = Ok rows
    /\ nth_error rows 1 = Some r
    /\ exists supply price mcap share move factor,
         supply_before defaults rows 1 = Some supply
         /\ price_before defaults rows 1 = Some price
         /\ mul supply price = Ok mcap
         /\ mul mcap (dec_lit 1 2) = Ok share
         /\ add (liquidity_depth defaults) share = Ok (Market_Depth r)
         /\ truediv (Revenue r) (Market_Depth r) = Ok move
         /\ add (int_lit 1) move = Ok factor
         /\ mul price factor = Ok (Token_Price r).
Proof.
  eexists. eexists.
  split; [vm_compute; reflexivity |]. split; [reflexivity |].
  eapply (price_moves_by_revenue_over_depth 24 defaults _ 1);
    [vm_compute; reflexivity | reflexivity].
Defined.

Lemma default_aum_rolls_forward :
  exists rows r,
    run_simulation (@defaults pynum _) = Ok rows
    /\ nth_error rows 1 = Some r
    /\ exists fee_rate rate growth total new,
         fee_rate_of defaults = Ok fee_rate
         /\ truediv (monthly_growth defaults) (int_lit 100) = Ok rate
         /\ add (int_lit 1) rate = Ok growth
         /\ (exists previous,
               nth_error rows 0 = Some previous
               /\ total = Total_AUM previous
               /\ new = New_AUM previous)
         /\ add total new = Ok (Total_AUM r)
         /\ mul new fee_rate = Ok (Revenue r)
         /\ mul new growth = Ok (New_AUM r).
Proof.
  eexists. eexists.
  split; [vm_compute; reflexivity |]. split; [reflexivity |].
  eapply (aum_rolls_forward 24 defaults _ 1);
    [vm_compute; reflexivity | reflexivity].
Defined.

(** The default run, and a run with the same AUM inputs and another
    token: 5,000,000 tokens at 2.00 dollars, a fee of 150 basis points, no
    burn and a market depth of 50,000 dollars. *)
Lemma default_aum_ignores_token_mechanics :
  exists rows1 rows2,
    initial_aum (@defaults pynum _)
    = initial_aum (params_of 10 1 5000000 150 0 (dec_lit 200 2) 50000 7)
    /\ monthly_growth (@defaults pynum _)
       = monthly_growth
           (params_of 10 1 5000000 150 0 (dec_lit 200 2) 50000 7)
    /\ run_simulation (@defaults pynum _) = Ok rows1
    /\ run_simulation
         (params_of 10 1 5000000 150 0 (dec_lit 200 2) 50000 7)
       = Ok rows2
    /\ map (@Total_AUM pynum) rows1 = map (@Total_AUM pynum) rows2
    /\ map (@New_AUM pynum) rows1 = map (@New_AUM pynum) rows2.
Proof.
  eexists. eexists.
  split; [reflexivity |]. split; [reflexivity |].
  split; [vm_compute; reflexivity |].
  split; [vm_compute; reflexivity |].
  apply (aum_ignores_token_mechanics 24 (@defaults pynum _)
           (params_of 10 1 5000000 150 0 (dec_lit 200 2) 50000 7));
    [reflexivity | reflexivity | vm_compute; reflexivity
     | vm_compute; reflexivity].
Defined.

(** The first year of the default run. *)
Lemma default_shorter_run_is_a_prefix :
  exists rows,
    simulate (12 + 12) (@defaults pynum _) = Ok rows
    /\ simulate 12 (@defaults pynum _) = Ok (firstn 12 rows).
Proof.
  eexists. split; [vm_compute; reflexivity |].
  apply (shorter_run_is_a_prefix 12 12 (@defaults pynum _)).
  vm_compute. reflexivity.
Defined.




(** A supply of 1,000,000 tokens at one cent that the burn of the first
    month exhausts. *)
Lemma exhausted_supply_stays_empty :
  (exists rows r r',
      simulate 2
        (params_of 1000 20 1000000 150 100 (dec_lit 1 2) 50000 1000000)
      = Ok rows
      /\ nth_error rows 0 = Some r
      /\ nth_error rows (1 + 0) = Some r'
      /\ Supply r == 0
      /\ Tokens_Burned r' == 0 /\ Supply r' == 0 /\ TTV r' == 0)
  /\ (exists rows r r',
         run_simulation
           (params_of 1000 20 1000000 150 100 (dec_lit 1 2) 50000 1000000)
         = Ok rows
         /\ nth_error rows 0 = Some r
         /\ nth_error rows (1 + 22) = Some r'
         /\ Supply r = PInt 0
         /\ Supply r' = PInt 0 /\ zero_or_nan (Tokens_Burned r')).
Proof.
  destruct empty_supply_stays_empty as [E B]. split.
  - eexists. eexists. eexists.
    split; [vm_compute; reflexivity |]. split; [reflexivity |].
    split; [reflexivity |]. split; [vm_compute; reflexivity |].
    eapply (E (params_of 1000 20 1000000 150 100 (dec_lit 1 2) 50000 1000000)
              2%nat _ 0%nat 0%nat);
      [vm_compute; reflexivity | reflexivity | reflexivity
       | vm_compute; reflexivity].
  - eexists. eexists. eexists.
    split; [vm_compute; reflexivity |]. split; [reflexivity |].
    split; [reflexivity |]. split; [reflexivity |].
    eapply (B (params_of 1000 20 1000000 150 100 (dec_lit 1 2) 50000 1000000)
              24%nat _ 0%nat 22%nat);
      [vm_compute; reflexivity | reflexivity | reflexivity | reflexivity].
Defined.



(** The defaults with a starting price of zero. *)
Lemma default_run_at_zero_price_raises :
  ((initial_price (params_of 10 1 100000000 25 50 (dec_lit 0 2) 500000 1000000)
    == 0)
   /\ simulate 24
        (params_of 10 1 100000000 25 50 (dec_lit 0 2) 500000 1000000)
      = Raise ZeroDivisionError)
  /\ (initial_price
        (params_of 10 1 100000000 25 50 (PFloat (S754_zero false)) 500000
           1000000)
      = PFloat (S754_zero false)
      /\ in_range
           (params_of 10 1 100000000 25 50 (PFloat (S754_zero false)) 500000
              1000000)
         = true
      /\ run_simulation
           (params_of 10 1 100000000 25 50 (PFloat (S754_zero false)) 500000
              1000000)
         = Raise ZeroDivisionError).
Proof.
  destruct zero_price_raises as [E B]. split.
  - split; [reflexivity |].
    apply (E (params_of 10 1 100000000 25 50 (dec_lit 0 2) 500000 1000000)
             23%nat).
    reflexivity.
  - split; [reflexivity |]. split; [vm_compute; reflexivity |].
    apply (B (params_of 10 1 100000000 25 50 (PFloat (S754_zero false))
                500000 1000000) 23%nat false);
      [reflexivity | vm_compute; reflexivity].
Defined.

Lemma default_columns_are_floats :
  exists rows r,
    run_simulation (@defaults pynum _) = Ok rows
    /\ nth_error rows 1 = Some r
    /\ float_columns r
    /\ (1%nat <> 0%nat -> is_float (Total_AUM r)).
Proof.
  eexists. eexists.
  split; [vm_compute; reflexivity |]. split; [reflexivity |].
  eapply (columns_are_floats 24 defaults _ 1);
    [vm_compute; reflexivity | reflexivity].
Defined.

Lemma default_sidebar_run_returns :
  sidebar (@defaults pynum _) = true
  /\ lt (int_lit 0) (initial_price (@defaults pynum _)) = true
  /\ lt (int_lit 0) (liquidity_depth (@defaults pynum _)) = true
  /\ lt (int_lit 0) (initial_supply (@defaults pynum _)) = true
  /\ leq (int_lit 0) (initial_aum (@defaults pynum _)) = true
  /\ in_range (@defaults pynum _) = true
  /\ exists rows,
       run_simulation (@defaults pynum _) = Ok rows
       /\ length rows = 24%nat
       /\ map (@Month pynum) rows = map Z.of_nat (seq 1 24)
       /\ Forall row_sound64 rows.
Proof.
  split; [reflexivity |]. split; [reflexivity |]. split; [reflexivity |].
  split; [reflexivity |]. split; [reflexivity |].
  split; [vm_compute; reflexivity |].
  apply (sidebar_run_returns (@defaults pynum _)); vm_compute; reflexivity.
Defined.


End FurtherInstances.
